(** * Ledger engine of the USERS service: deposit, withdraw, transfer, history

    Shallow embedding of [src/services/transaction.service.ts] (the version
    that keeps balances in the [balances] table), of the entities and DTOs it
    uses, and of the controller in front of it.

    Conventions of the embedding.
    - Money.  Every monetary column is [decimal(15,2)]; amounts and balances
      are integers counting hundredths ([Z], "cents").  The request body of
      the controller still carries an arbitrary finite decimal ([Decimal]),
      because the DTO validation is about its decimal places.
    - Storage.  The three tables are lists of rows, newest row first.  A row
      receives its [id] and its [createdAt] when it is saved; [createdAt] is
      the start time of the storage transaction that saved it.
    - Effects.  The callback given to [dataSource.transaction] is a program
      in the monad [M]: it works on a private copy of the tables, may throw,
      and appends to a trace of events.  [dataSource_transaction] commits the
      copy when the callback returns and discards it when the callback
      throws. *)

From Stdlib Require Import List ZArith String Bool Lia Arith.
Import ListNotations.
Local Open Scope string_scope.
Local Open Scope Z_scope.
Local Open Scope list_scope.

(** ** Entities *)

(** [src/entities/transaction.entity.ts] *)
Inductive TransactionType := DEPOSIT | WITHDRAWAL | TRANSFER.
Inductive TransactionStatus := PENDING | COMPLETED | FAILED.

Definition TransactionType_eqb (a b : TransactionType) : bool :=
  match a, b with
  | DEPOSIT, DEPOSIT | WITHDRAWAL, WITHDRAWAL | TRANSFER, TRANSFER => true
  | _, _ => false
  end.

(** Generated primary keys ([PrimaryGeneratedColumn('uuid')]) of the
    [transactions] and [balances] tables are drawn from a counter. *)
Definition Uuid := nat.
Bind Scope nat_scope with Uuid.

(** The columns of [Transaction].  A property is [None] while it is
    undefined (before the row is saved, or when the plain object given to
    [manager.create] has no such key).  The entity has a [balanceAfter]
    column and no [balanceBefore] column. *)
Record Transaction := mkTransaction {
  t_id : option Uuid;
  t_userId : option string;
  t_type : option TransactionType;
  t_amount : option Z;
  t_status : option TransactionStatus;
  t_description : option string;
  t_recipientUserId : option string;
  t_balanceAfter : option Z;
  t_createdAt : option nat
}.

(** The columns of [Balance] (the entity that follows [transaction.dto.ts]
    in the source tree). *)
Record Balance := mkBalance {
  b_id : option Uuid;
  b_userId : option string;
  b_transactionId : option Uuid;
  b_balanceBefore : option Z;
  b_balanceAfter : option Z;
  b_description : option string;
  b_createdAt : option nat
}.

(** [User] is declared in [user.entity.ts], which is not part of the
    sources at hand; the service reads only [id] and [email]. *)
Record User := mkUser {
  u_id : string;
  u_email : string
}.

(** ** Plain objects and [manager.create] *)

Inductive Value :=
| VStr (s : string)
| VNum (z : Z)
| VType (t : TransactionType)
| VStatus (s : TransactionStatus)
| VUuid (u : Uuid)
| VTime (n : nat).

(** An object literal: keys with their values, in source order. *)
Definition PlainObject := list (string * Value).

Fixpoint prop (k : string) (o : PlainObject) : option Value :=
  match o with
  | [] => None
  | (k', v) :: rest => if String.eqb k k' then Some v else prop k rest
  end.

Definition get_str (k : string) (o : PlainObject) : option string :=
  match prop k o with Some (VStr s) => Some s | _ => None end.
Definition get_num (k : string) (o : PlainObject) : option Z :=
  match prop k o with Some (VNum z) => Some z | _ => None end.
Definition get_type (k : string) (o : PlainObject) : option TransactionType :=
  match prop k o with Some (VType t) => Some t | _ => None end.
Definition get_status (k : string) (o : PlainObject) : option TransactionStatus :=
  match prop k o with Some (VStatus s) => Some s | _ => None end.
Definition get_uuid (k : string) (o : PlainObject) : option Uuid :=
  match prop k o with Some (VUuid u) => Some u | _ => None end.

(** An optional key of an object literal: present when its value is
    defined. *)
Definition opt_entry {A} (k : string) (f : A -> Value) (v : option A) : PlainObject :=
  match v with Some a => [(k, f a)] | None => [] end.

(** [manager.create(Transaction, o)]: a new entity that takes from [o] the
    properties that are columns of the entity; any other key of [o] is
    ignored. *)
Definition manager_create_Transaction (o : PlainObject) : Transaction :=
  {| t_id := None;
     t_userId := get_str "userId" o;
     t_type := get_type "type" o;
     t_amount := get_num "amount" o;
     t_status := get_status "status" o;
     t_description := get_str "description" o;
     t_recipientUserId := get_str "recipientUserId" o;
     t_balanceAfter := get_num "balanceAfter" o;
     t_createdAt := None |}.

(** [manager.create(Balance, o)] *)
Definition manager_create_Balance (o : PlainObject) : Balance :=
  {| b_id := None;
     b_userId := get_str "userId" o;
     b_transactionId := get_uuid "transactionId" o;
     b_balanceBefore := get_num "balanceBefore" o;
     b_balanceAfter := get_num "balanceAfter" o;
     b_description := get_str "description" o;
     b_createdAt := None |}.

(** The row of a transaction as the table stores it: one entry per column
    that is not null. *)
Definition Transaction_row (t : Transaction) : PlainObject :=
  opt_entry "id" VUuid (t_id t) ++
  opt_entry "userId" VStr (t_userId t) ++
  opt_entry "type" VType (t_type t) ++
  opt_entry "amount" VNum (t_amount t) ++
  opt_entry "status" VStatus (t_status t) ++
  opt_entry "description" VStr (t_description t) ++
  opt_entry "recipientUserId" VStr (t_recipientUserId t) ++
  opt_entry "balanceAfter" VNum (t_balanceAfter t) ++
  opt_entry "createdAt" VTime (t_createdAt t).

Definition Balance_row (b : Balance) : PlainObject :=
  opt_entry "id" VUuid (b_id b) ++
  opt_entry "userId" VStr (b_userId b) ++
  opt_entry "transactionId" VUuid (b_transactionId b) ++
  opt_entry "balanceBefore" VNum (b_balanceBefore b) ++
  opt_entry "balanceAfter" VNum (b_balanceAfter b) ++
  opt_entry "description" VStr (b_description b) ++
  opt_entry "createdAt" VTime (b_createdAt b).

(** ** Storage *)

Record Store := mkStore {
  users : list User;
  transactions : list Transaction;
  balances : list Balance
}.

(** The database with its clock and its key generator. *)
Record Database := mkDatabase {
  store : Store;
  clock : nat;
  next_uuid : Uuid
}.

(** What lies outside the program: which [save] of a storage transaction
    (counted from 0) the database refuses, whether the mail transport is
    configured, and whether it delivers. *)
Record Env := mkEnv {
  storage_fault : option nat;
  email_configured : bool;
  smtp_ok : bool
}.

Definition healthy : Env :=
  {| storage_fault := None; email_configured := true; smtp_ok := true |}.

(** ** Exceptions and events *)

Inductive Exn :=
| NotFoundException (message : string)
| BadRequestException (message : string)
| ValidationFailed (messages : list string)
| QueryFailedError.

(** [src/services/audit.service.ts] *)
Inductive AuditAction :=
| BALANCE_CHANGE | PASSWORD_RESET | EMAIL_VERIFIED
| TRANSACTION_CREATED | USER_REGISTERED | LOGIN.

Inductive Event :=
| EBegin
| ELock (userId : string)
| EInsertTransaction (id : Uuid)
| EInsertBalance (id : Uuid)
| EAuditLog (action : AuditAction) (userId : string) (details : PlainObject)
| EAuditWarn (action : AuditAction) (userId : string) (details : PlainObject)
| EEmail (to transactionType : string) (amount balance : Z)
| ESendMail (to : string)
| ELogError (message : string)
| ECommit
| ERollback.

(** ** The monad of a transaction callback *)

Record TxCtx := mkTxCtx {
  x_store : Store;
  x_now : nat;
  x_uuid : Uuid;
  x_saves : nat;
  x_trace : list Event
}.

Definition M (A : Type) : Type := TxCtx -> (Exn + A) * TxCtx.

Definition ret {A} (a : A) : M A := fun c => (inr a, c).
Definition throw {A} (e : Exn) : M A := fun c => (inl e, c).
Definition bind {A B} (m : M A) (k : A -> M B) : M B :=
  fun c => match m c with
           | (inr a, c') => k a c'
           | (inl e, c') => (inl e, c')
           end.

Notation "x <- m ;; k" := (bind m (fun x => k))
  (at level 100, m at next level, right associativity).
Notation "m ;;; k" := (bind m (fun _ => k))
  (at level 100, right associativity).

Definition emit (e : Event) : M unit :=
  fun c => (inr tt,
            {| x_store := x_store c; x_now := x_now c; x_uuid := x_uuid c;
               x_saves := x_saves c; x_trace := x_trace c ++ [e] |}).

(** ** [EntityManager] *)

Definition opt_str_eqb (o : option string) (s : string) : bool :=
  match o with Some s' => String.eqb s' s | None => false end.

(** [manager.findOne(User, { where: { id }, lock })]: with
    [pessimistic_write] the row that is found is locked until the storage
    transaction ends. *)
Definition manager_findOne_User_by_id (id : string) (lock : bool) : M (option User) :=
  fun c =>
    match find (fun u => String.eqb (u_id u) id) (users (x_store c)) with
    | Some u => if lock then (emit (ELock id) ;;; ret (Some u)) c
                else (inr (Some u), c)
    | None => (inr None, c)
    end.

(** [manager.findOne(User, { where: { email } })] *)
Definition manager_findOne_User_by_email (email : string) : M (option User) :=
  fun c => (inr (find (fun u => String.eqb (u_email u) email) (users (x_store c))), c).

(** [createdAt] of stored rows, compared as the database does for
    [ORDER BY createdAt DESC]. *)
Definition created (o : option nat) : nat :=
  match o with Some n => n | None => O end.

(** The row of [userId] with the greatest [createdAt]. *)
Fixpoint latest_of (userId : string) (rows : list Balance) : option Balance :=
  match rows with
  | [] => None
  | b :: rest =>
      if opt_str_eqb (b_userId b) userId then
        match latest_of userId rest with
        | Some b' => if (created (b_createdAt b) <? created (b_createdAt b'))%nat
                     then Some b' else Some b
        | None => Some b
        end
      else latest_of userId rest
  end.

(** [manager.findOne(Balance, { where: { userId }, order: { createdAt: 'DESC' } })] *)
Definition manager_findOne_Balance (userId : string) : M (option Balance) :=
  fun c => (inr (latest_of userId (balances (x_store c))), c).

Definition refused (env : Env) (n : nat) : bool :=
  match storage_fault env with Some k => Nat.eqb k n | None => false end.

Definition is_some {A} (o : option A) : bool :=
  match o with Some _ => true | None => false end.

Definition count_save (c : TxCtx) : TxCtx :=
  {| x_store := x_store c; x_now := x_now c; x_uuid := x_uuid c;
     x_saves := S (x_saves c); x_trace := x_trace c |}.

(** [manager.save(transaction)]: inserts the row with a fresh [id], with
    [createdAt] and with the column default of [status], and returns the
    stored entity.  The insert is refused when the database fails or when a
    column that is not nullable has no value. *)
Definition manager_save_Transaction (env : Env) (t : Transaction) : M Transaction :=
  fun c =>
    if refused env (x_saves c)
       || negb (is_some (t_userId t) && is_some (t_type t) && is_some (t_amount t))
    then (inl QueryFailedError, count_save c)
    else
      let saved :=
        {| t_id := Some (x_uuid c);
           t_userId := t_userId t;
           t_type := t_type t;
           t_amount := t_amount t;
           t_status := match t_status t with Some s => Some s | None => Some COMPLETED end;
           t_description := t_description t;
           t_recipientUserId := t_recipientUserId t;
           t_balanceAfter := t_balanceAfter t;
           t_createdAt := Some (x_now c) |} in
      (inr saved,
       {| x_store := {| users := users (x_store c);
                        transactions := saved :: transactions (x_store c);
                        balances := balances (x_store c) |};
          x_now := x_now c;
          x_uuid := S (x_uuid c);
          x_saves := S (x_saves c);
          x_trace := x_trace c ++ [EInsertTransaction (x_uuid c)] |}).

(** [manager.save(balance)] *)
Definition manager_save_Balance (env : Env) (b : Balance) : M Balance :=
  fun c =>
    if refused env (x_saves c)
       || negb (is_some (b_userId b) && is_some (b_balanceBefore b)
                && is_some (b_balanceAfter b))
    then (inl QueryFailedError, count_save c)
    else
      let saved :=
        {| b_id := Some (x_uuid c);
           b_userId := b_userId b;
           b_transactionId := b_transactionId b;
           b_balanceBefore := b_balanceBefore b;
           b_balanceAfter := b_balanceAfter b;
           b_description := b_description b;
           b_createdAt := Some (x_now c) |} in
      (inr saved,
       {| x_store := {| users := users (x_store c);
                        transactions := transactions (x_store c);
                        balances := saved :: balances (x_store c) |};
          x_now := x_now c;
          x_uuid := S (x_uuid c);
          x_saves := S (x_saves c);
          x_trace := x_trace c ++ [EInsertBalance (x_uuid c)] |}).

(** [dataSource.transaction(callback)]: the callback runs on the tables as
    they are when the storage transaction begins.  When it returns, its
    writes are committed; when it throws, they are discarded and the
    exception is passed on.  Either way the row locks are released, time has
    advanced and generated keys are not reused. *)
Definition dataSource_transaction {A} (callback : M A) (d : Database)
  : (Exn + A) * Database * list Event :=
  let c0 := {| x_store := store d; x_now := clock d; x_uuid := next_uuid d;
               x_saves := O; x_trace := [EBegin] |} in
  match callback c0 with
  | (inr a, c) =>
      (inr a,
       {| store := x_store c; clock := S (clock d); next_uuid := x_uuid c |},
       x_trace c ++ [ECommit])
  | (inl e, c) =>
      (inl e,
       {| store := store d; clock := S (clock d); next_uuid := x_uuid c |},
       x_trace c ++ [ERollback])
  end.

(** ** [AuditService] and [EmailService] *)

(** [AuditService.log]: one log line, and a warning as well for the
    critical actions. *)
Definition auditService_log (action : AuditAction) (userId : string)
  (details : PlainObject) : M unit :=
  emit (EAuditLog action userId details) ;;;
  match action with
  | BALANCE_CHANGE | PASSWORD_RESET => emit (EAuditWarn action userId details)
  | _ => ret tt
  end.

Definition auditService_logBalanceChange (userId : string)
  (oldBalance newBalance : Z) (reason : string) : M unit :=
  auditService_log BALANCE_CHANGE userId
    [("oldBalance", VNum oldBalance); ("newBalance", VNum newBalance);
     ("change", VNum (newBalance - oldBalance)); ("reason", VStr reason)].

Definition auditService_logTransaction (userId : string)
  (transactionId : option Uuid) (type : string) (amount : Z) : M unit :=
  auditService_log TRANSACTION_CREATED userId
    (opt_entry "transactionId" VUuid transactionId ++
     [("type", VStr type); ("amount", VNum amount)]).

(** The call [emailService.sendTransactionConfirmationEmail(..).catch(..)]
    of the service.  The mail is handed to the transport when one is
    configured; a mail that cannot be delivered is logged by the email
    service and nothing is thrown.  The promise is not awaited: the events
    after [EEmail] stand for work that completes at some later time. *)
Definition emailService_sendTransactionConfirmationEmail (env : Env)
  (email transactionType : string) (amount balance : Z) : M unit :=
  emit (EEmail email transactionType amount balance) ;;;
  if email_configured env then
    emit (ESendMail email) ;;;
    if smtp_ok env then ret tt
    else emit (ELogError
                 (String.append "Failed to send transaction confirmation email to " email))
  else ret tt.

(** ** [TransactionService] *)

(** The DTOs as the service reads them: [Number(amount)] in cents, and the
    optional description. *)
Record DepositDto := mkDepositDto {
  dep_amount : Z;
  dep_description : option string
}.

Record WithdrawDto := mkWithdrawDto {
  wd_amount : Z;
  wd_description : option string
}.

Record TransferDto := mkTransferDto {
  tr_recipientEmail : string;
  tr_amount : Z;
  tr_description : option string
}.

(** [description || fallback] *)
Definition or_else (description : option string) (fallback : string) : string :=
  match description with
  | Some EmptyString | None => fallback
  | Some s => s
  end.

(** [latestBalance ? Number(latestBalance.balanceAfter) : 0] *)
Definition balance_of (latestBalance : option Balance) : Z :=
  match latestBalance with
  | Some lb => match b_balanceAfter lb with Some z => z | None => 0 end
  | None => 0
  end.

Definition deposit_callback (env : Env) (userId : string) (depositDto : DepositDto)
  : M Transaction :=
  let amount := dep_amount depositDto in
  let description := dep_description depositDto in
  user <- manager_findOne_User_by_id userId true ;;
  match user with
  | None => throw (NotFoundException "User not found")
  | Some user =>
    latestBalance <- manager_findOne_Balance userId ;;
    let balanceBefore := balance_of latestBalance in
    let balanceAfter := balanceBefore + amount in
    let transaction := manager_create_Transaction
      [("userId", VStr userId);
       ("type", VType DEPOSIT);
       ("amount", VNum amount);
       ("status", VStatus COMPLETED);
       ("description", VStr (or_else description "Deposit"));
       ("balanceBefore", VNum balanceBefore);
       ("balanceAfter", VNum balanceAfter)] in
    savedTransaction <- manager_save_Transaction env transaction ;;
    let balance := manager_create_Balance
      ([("userId", VStr userId)] ++
       opt_entry "transactionId" VUuid (t_id savedTransaction) ++
       [("balanceBefore", VNum balanceBefore);
        ("balanceAfter", VNum balanceAfter);
        ("description", VStr (or_else description "Deposit"))]) in
    _ <- manager_save_Balance env balance ;;
    auditService_logBalanceChange userId balanceBefore balanceAfter "Deposit" ;;;
    auditService_logTransaction userId (t_id savedTransaction) "DEPOSIT" amount ;;;
    emailService_sendTransactionConfirmationEmail env
      (u_email user) "Deposit" amount balanceAfter ;;;
    ret savedTransaction
  end.

Definition deposit (env : Env) (d : Database) (userId : string)
  (depositDto : DepositDto) : (Exn + Transaction) * Database * list Event :=
  dataSource_transaction (deposit_callback env userId depositDto) d.

Definition withdraw_callback (env : Env) (userId : string) (withdrawDto : WithdrawDto)
  : M Transaction :=
  let amount := wd_amount withdrawDto in
  let description := wd_description withdrawDto in
  user <- manager_findOne_User_by_id userId true ;;
  match user with
  | None => throw (NotFoundException "User not found")
  | Some user =>
    latestBalance <- manager_findOne_Balance userId ;;
    let balanceBefore := balance_of latestBalance in
    let withdrawalAmount := amount in
    if balanceBefore <? withdrawalAmount then
      throw (BadRequestException "Insufficient funds")
    else
    let balanceAfter := balanceBefore - withdrawalAmount in
    let transaction := manager_create_Transaction
      [("userId", VStr userId);
       ("type", VType WITHDRAWAL);
       ("amount", VNum withdrawalAmount);
       ("status", VStatus COMPLETED);
       ("description", VStr (or_else description "Withdrawal"));
       ("balanceBefore", VNum balanceBefore);
       ("balanceAfter", VNum balanceAfter)] in
    savedTransaction <- manager_save_Transaction env transaction ;;
    let balance := manager_create_Balance
      ([("userId", VStr userId)] ++
       opt_entry "transactionId" VUuid (t_id savedTransaction) ++
       [("balanceBefore", VNum balanceBefore);
        ("balanceAfter", VNum balanceAfter);
        ("description", VStr (or_else description "Withdrawal"))]) in
    _ <- manager_save_Balance env balance ;;
    auditService_logBalanceChange userId balanceBefore balanceAfter "Withdrawal" ;;;
    auditService_logTransaction userId (t_id savedTransaction) "WITHDRAWAL"
      withdrawalAmount ;;;
    emailService_sendTransactionConfirmationEmail env
      (u_email user) "Withdrawal" withdrawalAmount balanceAfter ;;;
    ret savedTransaction
  end.

Definition withdraw (env : Env) (d : Database) (userId : string)
  (withdrawDto : WithdrawDto) : (Exn + Transaction) * Database * list Event :=
  dataSource_transaction (withdraw_callback env userId withdrawDto) d.

Definition transfer_callback (env : Env) (userId : string) (transferDto : TransferDto)
  : M Transaction :=
  let recipientEmail := tr_recipientEmail transferDto in
  let amount := tr_amount transferDto in
  let description := tr_description transferDto in
  recipient <- manager_findOne_User_by_email recipientEmail ;;
  match recipient with
  | None => throw (NotFoundException "Recipient not found")
  | Some recipient =>
    if String.eqb (u_id recipient) userId then
      throw (BadRequestException "Cannot transfer to yourself")
    else
    sender <- manager_findOne_User_by_id userId true ;;
    match sender with
    | None => throw (NotFoundException "Sender not found")
    | Some sender =>
      recipientLocked <- manager_findOne_User_by_id (u_id recipient) true ;;
      match recipientLocked with
      | None => throw (NotFoundException "Recipient not found")
      | Some recipientLocked =>
        let transferAmount := amount in
        senderLatestBalance <- manager_findOne_Balance userId ;;
        recipientLatestBalance <- manager_findOne_Balance (u_id recipient) ;;
        let senderBalanceBefore := balance_of senderLatestBalance in
        let recipientBalanceBefore := balance_of recipientLatestBalance in
        if senderBalanceBefore <? transferAmount then
          throw (BadRequestException "Insufficient funds")
        else
        let senderBalanceAfter := senderBalanceBefore - transferAmount in
        let recipientBalanceAfter := recipientBalanceBefore + transferAmount in
        let transaction := manager_create_Transaction
          [("userId", VStr userId);
           ("type", VType TRANSFER);
           ("amount", VNum transferAmount);
           ("status", VStatus COMPLETED);
           ("description",
            VStr (or_else description (String.append "Transfer to " recipientEmail)));
           ("recipientUserId", VStr (u_id recipient));
           ("balanceBefore", VNum senderBalanceBefore);
           ("balanceAfter", VNum senderBalanceAfter)] in
        savedTransaction <- manager_save_Transaction env transaction ;;
        let senderBalance := manager_create_Balance
          ([("userId", VStr userId)] ++
           opt_entry "transactionId" VUuid (t_id savedTransaction) ++
           [("balanceBefore", VNum senderBalanceBefore);
            ("balanceAfter", VNum senderBalanceAfter);
            ("description",
             VStr (or_else description (String.append "Transfer to " recipientEmail)))]) in
        _ <- manager_save_Balance env senderBalance ;;
        auditService_logBalanceChange userId senderBalanceBefore senderBalanceAfter
          "Transfer" ;;;
        auditService_logTransaction userId (t_id savedTransaction) "TRANSFER"
          transferAmount ;;;
        let recipientTransaction := manager_create_Transaction
          [("userId", VStr (u_id recipient));
           ("type", VType TRANSFER);
           ("amount", VNum transferAmount);
           ("status", VStatus COMPLETED);
           ("description",
            VStr (or_else description (String.append "Transfer from " (u_email sender))));
           ("recipientUserId", VStr userId);
           ("balanceBefore", VNum recipientBalanceBefore);
           ("balanceAfter", VNum recipientBalanceAfter)] in
        savedRecipientTransaction <- manager_save_Transaction env recipientTransaction ;;
        let recipientBalance := manager_create_Balance
          ([("userId", VStr (u_id recipient))] ++
           opt_entry "transactionId" VUuid (t_id savedRecipientTransaction) ++
           [("balanceBefore", VNum recipientBalanceBefore);
            ("balanceAfter", VNum recipientBalanceAfter);
            ("description",
             VStr (or_else description
                     (String.append "Transfer from " (u_email sender))))]) in
        _ <- manager_save_Balance env recipientBalance ;;
        emailService_sendTransactionConfirmationEmail env
          (u_email sender) "Transfer" transferAmount senderBalanceAfter ;;;
        emailService_sendTransactionConfirmationEmail env
          (u_email recipient) "Transfer Received" transferAmount recipientBalanceAfter ;;;
        ret savedTransaction
      end
    end
  end.

Definition transfer (env : Env) (d : Database) (userId : string)
  (transferDto : TransferDto) : (Exn + Transaction) * Database * list Event :=
  dataSource_transaction (transfer_callback env userId transferDto) d.

(** *** [getTransactions] *)

Record TransactionPage := mkTransactionPage {
  p_transactions : list Transaction;
  p_total : nat;
  p_page : Z;
  p_limit : Z
}.

(** [ORDER BY createdAt DESC], as a stable insertion sort. *)
Fixpoint insert_desc (t : Transaction) (l : list Transaction) : list Transaction :=
  match l with
  | [] => [t]
  | t' :: rest =>
      if (created (t_createdAt t') <=? created (t_createdAt t))%nat
      then t :: l
      else t' :: insert_desc t rest
  end.

Definition orderBy_createdAt_DESC (l : list Transaction) : list Transaction :=
  fold_right insert_desc [] l.

Definition opt_type_eqb (o : option TransactionType) (ty : TransactionType) : bool :=
  match o with Some ty' => TransactionType_eqb ty' ty | None => false end.

(** The rows selected by the query builder: those of [userId], and of the
    given type when a type is given. *)
Definition where_clause (userId : string) (type : option TransactionType)
  (t : Transaction) : bool :=
  opt_str_eqb (t_userId t) userId &&
  match type with
  | Some ty => opt_type_eqb (t_type t) ty
  | None => true
  end.

(** [skip(n).take(m)] as OFFSET and LIMIT over the ordered rows. *)
Definition skip_take (n m : Z) (l : list Transaction) : list Transaction :=
  firstn (Z.to_nat m) (skipn (Z.to_nat n) l).

(** The query reads the [transactions] table only; the service method has no
    lookup of the user and no [throw]. *)
Definition getTransactions (d : Database) (userId : string) (page limit : Z)
  (type : option TransactionType) : Exn + TransactionPage :=
  let matching := filter (where_clause userId type) (transactions (store d)) in
  let rows := skip_take ((page - 1) * limit) limit (orderBy_createdAt_DESC matching) in
  let total := List.length matching in
  inr {| p_transactions := rows; p_total := total; p_page := page; p_limit := limit |}.

(** *** [UserService.getBalance] (the version over the [balances] table) *)

Definition getBalance (d : Database) (userId : string) : Exn + Z :=
  match find (fun u => String.eqb (u_id u) userId) (users (store d)) with
  | None => inl (NotFoundException "User not found")
  | Some _ => inr (balance_of (latest_of userId (balances (store d))))
  end.

(** The balance of an account as every operation reads it. *)
Definition current_balance (d : Database) (userId : string) : Z :=
  balance_of (latest_of userId (balances (store d))).

(** ** Request validation and the controller *)

(** The [amount] of a request body: the finite decimal
    [mantissa / 10 ^ places]. *)
Record Decimal := mkDecimal {
  mantissa : Z;
  places : nat
}.

(** Digits after the decimal point once trailing zeros are dropped, which
    is what the number prints with. *)
Fixpoint decimalPlaces (m : Z) (p : nat) : nat :=
  match p with
  | O => O
  | S p' => if m mod 10 =? 0 then decimalPlaces (m / 10) p' else p
  end.

Definition pow10 (p : nat) : Z := 10 ^ Z.of_nat p.

(** The decorators of [amount] in [src/dto/transaction.dto.ts]. *)
Definition IsNumber_maxDecimalPlaces (max : nat) (a : Decimal) : bool :=
  (decimalPlaces (mantissa a) (places a) <=? max)%nat.
Definition IsPositive (a : Decimal) : bool := 0 <? mantissa a.
(** [Min(0.01)]: [0.01 <= mantissa / 10 ^ places] *)
Definition Min_0_01 (a : Decimal) : bool := pow10 (places a) <=? mantissa a * 100.
(** [Max(1000000)]: [mantissa / 10 ^ places <= 1000000] *)
Definition Max_1000000 (a : Decimal) : bool := mantissa a <=? 1000000 * pow10 (places a).

Definition violated (ok : bool) (message : string) : list string :=
  if ok then [] else [message].

(** The constraint violations of [amount]; [op] is the word the messages of
    the DTO use ("deposit", "withdrawal", "transfer"). *)
Definition validate_amount (op : string) (a : Decimal) : list string :=
  violated (IsNumber_maxDecimalPlaces 2 a)
    "amount must be a number conforming to the specified constraints" ++
  violated (IsPositive a) "Amount must be a positive number" ++
  violated (Min_0_01 a)
    (String.append "Minimum " (String.append op " amount is 0.01")) ++
  violated (Max_1000000 a)
    (String.append "Maximum " (String.append op " amount is 1,000,000")).

(** [Number(amount)] of a validated amount, in cents. *)
Definition cents (a : Decimal) : Z := mantissa a * 100 / pow10 (places a).

Record DepositBody := mkDepositBody {
  depb_amount : Decimal;
  depb_description : option string
}.

Record WithdrawBody := mkWithdrawBody {
  wdb_amount : Decimal;
  wdb_description : option string
}.

Record TransferBody := mkTransferBody {
  trb_recipientEmail : string;
  trb_amount : Decimal;
  trb_description : option string
}.

Definition Response := ((Exn + Transaction) * Database * list Event)%type.

(** The global [ValidationPipe] of [app.module.ts] in front of a handler:
    a body with violations is answered with a 400 and the handler is not
    called. *)
Definition ValidationPipe (violations : list string) (d : Database)
  (handler : Response) : Response :=
  match violations with
  | [] => handler
  | _ :: _ => (inl (ValidationFailed violations), d, [])
  end.

(** [TransactionController]: [user] is the authenticated user. *)
Definition controller_deposit (env : Env) (d : Database) (user : User)
  (body : DepositBody) : Response :=
  ValidationPipe (validate_amount "deposit" (depb_amount body)) d
    (deposit env d (u_id user)
       {| dep_amount := cents (depb_amount body);
          dep_description := depb_description body |}).

Definition controller_withdraw (env : Env) (d : Database) (user : User)
  (body : WithdrawBody) : Response :=
  ValidationPipe (validate_amount "withdrawal" (wdb_amount body)) d
    (withdraw env d (u_id user)
       {| wd_amount := cents (wdb_amount body);
          wd_description := wdb_description body |}).

Definition controller_transfer (env : Env) (d : Database) (user : User)
  (body : TransferBody) : Response :=
  ValidationPipe (validate_amount "transfer" (trb_amount body)) d
    (transfer env d (u_id user)
       {| tr_recipientEmail := trb_recipientEmail body;
          tr_amount := cents (trb_amount body);
          tr_description := trb_description body |}).

(** ** Traces *)

(** The row locks taken, in the order of acquisition. *)
Fixpoint locks_acquired (tr : list Event) : list string :=
  match tr with
  | [] => []
  | ELock u :: rest => u :: locks_acquired rest
  | _ :: rest => locks_acquired rest
  end.






(** The canonical order of two account identifiers. *)
Definition canonical_order (a b : string) : list string :=
  if String.leb a b then [a; b] else [b; a].

(** * Vocabulary of the statements *)

(** ** Closed forms *)

(** The rows as [save] stores them. *)
Definition stored_transaction (id : Uuid) (now : nat) (userId : string)
  (type : TransactionType) (amount : Z) (description : string)
  (recipientUserId : option string) (balanceAfter : Z) : Transaction :=
  {| t_id := Some id;
     t_userId := Some userId;
     t_type := Some type;
     t_amount := Some amount;
     t_status := Some COMPLETED;
     t_description := Some description;
     t_recipientUserId := recipientUserId;
     t_balanceAfter := Some balanceAfter;
     t_createdAt := Some now |}.

Definition stored_balance (id : Uuid) (now : nat) (userId : string)
  (transactionId : Uuid) (balanceBefore balanceAfter : Z) (description : string)
  : Balance :=
  {| b_id := Some id;
     b_userId := Some userId;
     b_transactionId := Some transactionId;
     b_balanceBefore := Some balanceBefore;
     b_balanceAfter := Some balanceAfter;
     b_description := Some description;
     b_createdAt := Some now |}.

(** The database after a rollback in which [k] keys were drawn, and after a
    commit of new rows. *)
Definition rolled_back (d : Database) (k : nat) : Database :=
  {| store := store d; clock := S (clock d); next_uuid := (k + next_uuid d)%nat |}.

Definition committed (d : Database) (ts : list Transaction) (bs : list Balance)
  : Database :=
  {| store := {| users := users (store d);
                 transactions := ts ++ transactions (store d);
                 balances := bs ++ balances (store d) |};
     clock := S (clock d);
     next_uuid := (List.length ts + List.length bs + next_uuid d)%nat |}.

(** The events of the two audit calls that follow a pair of inserts, and of
    one notification call. *)
Definition audit_events (userId : string) (oldBalance newBalance : Z)
  (reason : string) (transactionId : Uuid) (type : string) (amount : Z)
  : list Event :=
  let change :=
    [("oldBalance", VNum oldBalance); ("newBalance", VNum newBalance);
     ("change", VNum (newBalance - oldBalance)); ("reason", VStr reason)] in
  [EAuditLog BALANCE_CHANGE userId change;
   EAuditWarn BALANCE_CHANGE userId change;
   EAuditLog TRANSACTION_CREATED userId
     [("transactionId", VUuid transactionId); ("type", VStr type);
      ("amount", VNum amount)]].

Definition email_events (env : Env) (email transactionType : string)
  (amount balance : Z) : list Event :=
  EEmail email transactionType amount balance ::
  (if email_configured env then
     ESendMail email ::
     (if smtp_ok env then []
      else [ELogError
              (String.append "Failed to send transaction confirmation email to " email)])
   else []).

Definition with_trace (c : TxCtx) (es : list Event) : TxCtx :=
  {| x_store := x_store c; x_now := x_now c; x_uuid := x_uuid c;
     x_saves := x_saves c; x_trace := x_trace c ++ es |}.

(** The lookups of [users] that the operations start with. *)
Definition find_by_id (userId : string) (d : Database) : option User :=
  find (fun u => String.eqb (u_id u) userId) (users (store d)).

Definition find_by_email (email : string) (d : Database) : option User :=
  find (fun u => String.eqb (u_email u) email) (users (store d)).

(** ** A small bank for the scenarios *)

Definition account_A : User := {| u_id := "A"; u_email := "a@example.com" |}.
Definition account_B : User := {| u_id := "B"; u_email := "b@example.com" |}.

(** Both accounts exist and the ledger is empty. *)
Definition bank0 : Database :=
  {| store := {| users := [account_A; account_B]; transactions := []; balances := [] |};
     clock := 0;
     next_uuid := 0 |}.

(** Account A holds 100.00. *)
Definition bank100 : Database := Eval vm_compute in
  snd (fst (deposit healthy bank0 "A"
              {| dep_amount := 10000; dep_description := None |})).

(** Account A holds 100.00 and account B holds 50.00. *)
Definition bank_AB : Database := Eval vm_compute in
  snd (fst (deposit healthy bank100 "B"
              {| dep_amount := 5000; dep_description := None |})).

Definition to_A (amount : Z) : TransferDto :=
  {| tr_recipientEmail := "a@example.com"; tr_amount := amount;
     tr_description := None |}.
Definition to_B (amount : Z) : TransferDto :=
  {| tr_recipientEmail := "b@example.com"; tr_amount := amount;
     tr_description := None |}.

(** Account A holds 150.00 (after the deposit of scenario 2). *)
Definition bank150 : Database := Eval vm_compute in
  snd (fst (deposit healthy bank100 "A"
              {| dep_amount := 5000; dep_description := None |})).

(** Scenario 3: A sends its 150.00 to B. *)
Definition scenario3 : Response := Eval vm_compute in
  transfer healthy bank150 "A" (to_B 15000).


Definition fifty : DepositDto := {| dep_amount := 5000; dep_description := None |}.

(** Scenario 2: 50.00 is deposited on A's 100.00. *)
Definition scenario2 : Response := Eval vm_compute in deposit healthy bank100 "A" fifty.

(** ** The balance chain *)

(** Every stored balance entry was created before the present time of the
    database.  This holds of the empty ledger and is kept by every
    operation. *)
Definition well_timed (d : Database) : Prop :=
  Forall (fun b => (created (b_createdAt b) < clock d)%nat) (balances (store d)).

(** ** Sequences of deposits and withdrawals on one account *)

Inductive Request :=
| Deposit (body : DepositBody)
| Withdraw (body : WithdrawBody).

(** One request of [user], in its own environment. *)
Definition call (user : User) (d : Database) (c : Env * Request) : Response :=
  match snd c with
  | Deposit body => controller_deposit (fst c) d user body
  | Withdraw body => controller_withdraw (fst c) d user body
  end.

Definition after (user : User) (d : Database) (c : Env * Request) : Database :=
  snd (fst (call user d c)).

Definition accepted (user : User) (d : Database) (c : Env * Request) : bool :=
  match fst (fst (call user d c)) with inr _ => true | inl _ => false end.

Fixpoint run (user : User) (d : Database) (calls : list (Env * Request)) : Database :=
  match calls with
  | [] => d
  | c :: rest => run user (after user d c) rest
  end.

(** The databases the sequence goes through, the first one included. *)
Fixpoint history (user : User) (d : Database) (calls : list (Env * Request))
  : list Database :=
  d :: match calls with
       | [] => []
       | c :: rest => history user (after user d c) rest
       end.

Definition deposited (c : Env * Request) : Z :=
  match snd c with Deposit body => cents (depb_amount body) | Withdraw _ => 0 end.
Definition withdrawn (c : Env * Request) : Z :=
  match snd c with Withdraw body => cents (wdb_amount body) | Deposit _ => 0 end.

(** The sums of the amounts of the accepted deposits and of the accepted
    withdrawals. *)
Fixpoint accepted_deposits (user : User) (d : Database) (calls : list (Env * Request))
  : Z :=
  match calls with
  | [] => 0
  | c :: rest =>
      (if accepted user d c then deposited c else 0)
      + accepted_deposits user (after user d c) rest
  end.

Fixpoint accepted_withdrawals (user : User) (d : Database)
  (calls : list (Env * Request)) : Z :=
  match calls with
  | [] => 0
  | c :: rest =>
      (if accepted user d c then withdrawn c else 0)
      + accepted_withdrawals user (after user d c) rest
  end.

(** The ledger with no transaction and no balance entry, over any set of
    users. *)
Definition empty_ledger (accounts : list User) (now : nat) (next : Uuid) : Database :=
  {| store := {| users := accounts; transactions := []; balances := [] |};
     clock := now;
     next_uuid := next |}.

(** ** Requests and queries *)



From Stdlib Require Import Permutation.

(** ** Reachable databases *)

(** One call of the service, by any caller, in any environment. *)
Inductive Action :=
| ADeposit (env : Env) (userId : string) (dto : DepositDto)
| AWithdraw (env : Env) (userId : string) (dto : WithdrawDto)
| ATransfer (env : Env) (userId : string) (dto : TransferDto).

Definition perform (d : Database) (a : Action) : Response :=
  match a with
  | ADeposit env userId dto => deposit env d userId dto
  | AWithdraw env userId dto => withdraw env d userId dto
  | ATransfer env userId dto => transfer env d userId dto
  end.

Definition result_of (r : Response) : Exn + Transaction := fst (fst r).
Definition database_of (r : Response) : Database := snd (fst r).
Definition trace_of (r : Response) : list Event := snd r.

Definition succeeded (r : Response) : bool :=
  match result_of r with inr _ => true | inl _ => false end.

Fixpoint perform_all (d : Database) (actions : list Action) : Database :=
  match actions with
  | [] => d
  | a :: rest => perform_all (database_of (perform d a)) rest
  end.

(** What one call can do to the database: nothing but the passing of time
    and the drawing of keys, or one pair on top of the tables, or the two
    pairs of a transfer. *)
Inductive grows (d : Database) : Database -> Prop :=
| grows_rollback (k : nat) :
    grows d (rolled_back d k)
| grows_pair (userId : string) (user : User) (type : TransactionType)
    (amount delta : Z) (description : string) :
    find_by_id userId d = Some user ->
    (type = DEPOSIT /\ delta = amount)
    \/ (type = WITHDRAWAL /\ delta = - amount /\ amount <= current_balance d userId) ->
    let b0 := current_balance d userId in
    let n := next_uuid d in
    grows d
      (committed d
         [stored_transaction n (clock d) userId type amount description None
            (b0 + delta)]
         [stored_balance (S n) (clock d) userId n b0 (b0 + delta) description])
| grows_transfer (userId : string) (sender recipient : User) (amount : Z)
    (description_s description_r : string) :
    find_by_id userId d = Some sender ->
    In recipient (users (store d)) ->
    u_id recipient <> userId ->
    amount <= current_balance d userId ->
    let rid := u_id recipient in
    let bs0 := current_balance d userId in
    let br0 := current_balance d rid in
    let n := next_uuid d in
    grows d
      (committed d
         [stored_transaction (S (S n)) (clock d) rid TRANSFER amount description_r
            (Some userId) (br0 + amount);
          stored_transaction n (clock d) userId TRANSFER amount description_s
            (Some rid) (bs0 - amount)]
         [stored_balance (S (S (S n))) (clock d) rid (S (S n)) br0 (br0 + amount)
            description_r;
          stored_balance (S n) (clock d) userId n bs0 (bs0 - amount) description_s]).

(** ** The chain of one account *)

(** The balance entries of one account, newest first. *)
Definition own (userId : string) (rows : list Balance) : list Balance :=
  filter (fun b => opt_str_eqb (b_userId b) userId) rows.

Definition after_of (b : Balance) : Z :=
  match b_balanceAfter b with Some z => z | None => 0 end.

(** Each entry starts from the balance the entry before it ended with; the
    oldest entry starts from 0. *)
Fixpoint chain (l : list Balance) : Prop :=
  match l with
  | [] => True
  | b :: rest =>
      b_balanceBefore b = Some (match rest with [] => 0 | b' :: _ => after_of b' end)
      /\ chain rest
  end.

(** Strictly decreasing, read from the head. *)
Fixpoint descending (l : list nat) : Prop :=
  match l with
  | [] => True
  | n :: rest =>
      match rest with [] => True | m :: _ => (m < n)%nat end /\ descending rest
  end.

Definition account_chain (d : Database) (userId : string) : Prop :=
  let l := own userId (balances (store d)) in
  chain l /\ descending (map (fun b => created (b_createdAt b)) l).

(** ** Pairs of rows *)

(** A transaction and the balance entry saved with it. *)
Definition pair_ok (t : Transaction) (b : Balance) : Prop :=
  t_id t <> None /\ b_transactionId b = t_id t /\
  b_userId b = t_userId t /\ b_createdAt b = t_createdAt t /\
  b_balanceAfter b = t_balanceAfter t /\
  t_status t = Some COMPLETED /\
  exists before amount,
    b_balanceBefore b = Some before /\ t_amount t = Some amount /\
    match t_type t with
    | Some DEPOSIT => b_balanceAfter b = Some (before + amount)
    | Some WITHDRAWAL => b_balanceAfter b = Some (before - amount)
    | Some TRANSFER =>
        b_balanceAfter b = Some (before - amount)
        \/ b_balanceAfter b = Some (before + amount)
    | None => False
    end.

Definition key_below (bound : Uuid) (k : option Uuid) : Prop :=
  match k with Some n => (n < bound)%nat | None => False end.

(** The two tables are in step, pair by pair, and within each table no key
    occurs twice (every key is one the generator has already passed). *)
Definition paired (d : Database) : Prop :=
  Forall2 pair_ok (transactions (store d)) (balances (store d))
  /\ NoDup (map t_id (transactions (store d)))
  /\ NoDup (map b_id (balances (store d)))
  /\ Forall (key_below (next_uuid d)) (map t_id (transactions (store d)))
  /\ Forall (key_below (next_uuid d)) (map b_id (balances (store d))).

(** ** Money in the bank *)

(** The sum of the balances of the given accounts. *)
Fixpoint total (d : Database) (ids : list string) : Z :=
  match ids with
  | [] => 0
  | i :: rest => current_balance d i + total d rest
  end.

(** [ids] names every account once. *)
Definition all_accounts (d : Database) (ids : list string) : Prop :=
  NoDup ids /\ forall u, In u (users (store d)) -> In (u_id u) ids.

(** The sums of the amounts that the accepted deposits put in and that the
    accepted withdrawals took out. *)
Fixpoint paid_in (d : Database) (actions : list Action) : Z :=
  match actions with
  | [] => 0
  | a :: rest =>
      match a with
      | ADeposit _ _ dto => if succeeded (perform d a) then dep_amount dto else 0
      | _ => 0
      end + paid_in (database_of (perform d a)) rest
  end.

Fixpoint paid_out (d : Database) (actions : list Action) : Z :=
  match actions with
  | [] => 0
  | a :: rest =>
      match a with
      | AWithdraw _ _ dto => if succeeded (perform d a) then wd_amount dto else 0
      | _ => 0
      end + paid_out (database_of (perform d a)) rest
  end.

(** The entries are well timed and every account has its chain. *)
Definition ledger_ok (d : Database) : Prop :=
  well_timed d /\ forall userId, account_chain d userId.

Fixpoint sum_over (f : string -> Z) (ids : list string) : Z :=
  match ids with
  | [] => 0
  | i :: rest => f i + sum_over f rest
  end.

(** The accounts a call is about: the caller, and for a transfer the account
    the recipient address resolves to. *)
Definition parties (d : Database) (a : Action) : list string :=
  match a with
  | ADeposit _ userId _ | AWithdraw _ userId _ => [userId]
  | ATransfer _ userId dto =>
      userId :: match find_by_email (tr_recipientEmail dto) d with
                | Some recipient => [u_id recipient]
                | None => []
                end
  end.

(** ** Requests of many users *)

Inductive HttpRequest :=
| PostDeposit (user : User) (body : DepositBody)
| PostWithdraw (user : User) (body : WithdrawBody)
| PostTransfer (user : User) (body : TransferBody).

Definition serve (d : Database) (c : Env * HttpRequest) : Response :=
  match snd c with
  | PostDeposit user body => controller_deposit (fst c) d user body
  | PostWithdraw user body => controller_withdraw (fst c) d user body
  | PostTransfer user body => controller_transfer (fst c) d user body
  end.

Fixpoint serve_all (d : Database) (requests : list (Env * HttpRequest)) : Database :=
  match requests with
  | [] => d
  | c :: rest => serve_all (database_of (serve d c)) rest
  end.

Definition amount_of (a : Action) : Z :=
  match a with
  | ADeposit _ _ dto => dep_amount dto
  | AWithdraw _ _ dto => wd_amount dto
  | ATransfer _ _ dto => tr_amount dto
  end.

Definition no_overdraft (d : Database) : Prop :=
  forall v, 0 <= current_balance d v.

(** ** Reading a trace *)

Definition caller (a : Action) : string :=
  match a with
  | ADeposit _ userId _ | AWithdraw _ userId _ | ATransfer _ userId _ => userId
  end.

(** The locks still held after the events of [tr], given those held before. *)
Fixpoint held_after (held : list string) (tr : list Event) : list string :=
  match tr with
  | [] => held
  | ELock u :: rest => held_after (u :: held) rest
  | ECommit :: rest | ERollback :: rest => held_after [] rest
  | _ :: rest => held_after held rest
  end.

(** The accounts that the audit log is told about. *)
Fixpoint audit_subjects (tr : list Event) : list string :=
  match tr with
  | [] => []
  | EAuditLog _ u _ :: rest => u :: audit_subjects rest
  | _ :: rest => audit_subjects rest
  end.


(** ** Reading a page of the history *)

Definition rows_of (r : Exn + TransactionPage) : list Transaction :=
  match r with inr p => p_transactions p | inl _ => [] end.



(** Pages 1 to [n] of the history, one after the other. *)
Definition first_pages (d : Database) (userId : string) (limit : Z)
  (type : option TransactionType) (n : nat) : list Transaction :=
  flat_map (fun k => rows_of (getTransactions d userId (Z.of_nat k) limit type))
    (seq 1 n).

(** Every stored transaction was created before the present time of the
    database. *)
Definition history_timed (d : Database) : Prop :=
  Forall (fun t => (created (t_createdAt t) < clock d)%nat) (transactions (store d)).

(** What a successful call does to the balance of its caller. *)
Definition signed_amount (a : Action) : Z :=
  match a with
  | ADeposit _ _ dto => dep_amount dto
  | AWithdraw _ _ dto => - wd_amount dto
  | ATransfer _ _ dto => - tr_amount dto
  end.

(** * The earlier version of the service: balances in the [users] table

    [part_003] is the version of [transaction.service.ts] in which the
    balance is the column [balance] of the user row, updated in place under
    the row lock, and [part_004] begins with the [UserService] that reads
    it.  The [Transaction] entity, the audit service and the email service
    are the same. *)

Module Legacy.

(** [User] with the column the service reads and writes. *)
Record User := mkUser {
  u_id : string;
  u_email : string;
  u_balance : Z
}.

Record Store := mkStore {
  users : list User;
  transactions : list Transaction
}.

Record Database := mkDatabase {
  store : Store;
  clock : nat;
  next_uuid : Uuid
}.

Record TxCtx := mkTxCtx {
  x_store : Store;
  x_now : nat;
  x_uuid : Uuid;
  x_saves : nat;
  x_trace : list Event
}.

Definition M (A : Type) : Type := TxCtx -> (Exn + A) * TxCtx.

Definition ret {A} (a : A) : M A := fun c => (inr a, c).
Definition throw {A} (e : Exn) : M A := fun c => (inl e, c).
Definition bind {A B} (m : M A) (k : A -> M B) : M B :=
  fun c => match m c with
           | (inr a, c') => k a c'
           | (inl e, c') => (inl e, c')
           end.

Declare Scope legacy_scope.
Notation "x <- m ;; k" := (bind m (fun x => k))
  (at level 100, m at next level, right associativity) : legacy_scope.
Notation "m ;;; k" := (bind m (fun _ => k))
  (at level 100, right associativity) : legacy_scope.
Local Open Scope legacy_scope.

Definition emit (e : Event) : M unit :=
  fun c => (inr tt,
            {| x_store := x_store c; x_now := x_now c; x_uuid := x_uuid c;
               x_saves := x_saves c; x_trace := x_trace c ++ [e] |}).

Definition manager_findOne_User_by_id (id : string) (lock : bool) : M (option User) :=
  fun c =>
    match find (fun u => String.eqb (u_id u) id) (users (x_store c)) with
    | Some u => if lock then (emit (ELock id) ;;; ret (Some u)) c
                else (inr (Some u), c)
    | None => (inr None, c)
    end.

Definition manager_findOne_User_by_email (email : string) : M (option User) :=
  fun c => (inr (find (fun u => String.eqb (u_email u) email) (users (x_store c))), c).

Definition count_save (c : TxCtx) : TxCtx :=
  {| x_store := x_store c; x_now := x_now c; x_uuid := x_uuid c;
     x_saves := S (x_saves c); x_trace := x_trace c |}.

(** [manager.save(user)] of a loaded user: the row with its id is replaced
    by the entity. *)
Definition manager_save_User (env : Env) (user : User) : M User :=
  fun c =>
    if refused env (x_saves c) then (inl QueryFailedError, count_save c)
    else
      (inr user,
       {| x_store :=
            {| users := map (fun u => if String.eqb (u_id u) (u_id user)
                                      then user else u) (users (x_store c));
               transactions := transactions (x_store c) |};
          x_now := x_now c;
          x_uuid := x_uuid c;
          x_saves := S (x_saves c);
          x_trace := x_trace c |}).

Definition manager_save_Transaction (env : Env) (t : Transaction) : M Transaction :=
  fun c =>
    if refused env (x_saves c)
       || negb (is_some (t_userId t) && is_some (t_type t) && is_some (t_amount t))
    then (inl QueryFailedError, count_save c)
    else
      let saved :=
        {| t_id := Some (x_uuid c);
           t_userId := t_userId t;
           t_type := t_type t;
           t_amount := t_amount t;
           t_status := match t_status t with Some s => Some s | None => Some COMPLETED end;
           t_description := t_description t;
           t_recipientUserId := t_recipientUserId t;
           t_balanceAfter := t_balanceAfter t;
           t_createdAt := Some (x_now c) |} in
      (inr saved,
       {| x_store := {| users := users (x_store c);
                        transactions := saved :: transactions (x_store c) |};
          x_now := x_now c;
          x_uuid := S (x_uuid c);
          x_saves := S (x_saves c);
          x_trace := x_trace c ++ [EInsertTransaction (x_uuid c)] |}).

Definition dataSource_transaction {A} (callback : M A) (d : Database)
  : (Exn + A) * Database * list Event :=
  let c0 := {| x_store := store d; x_now := clock d; x_uuid := next_uuid d;
               x_saves := O; x_trace := [EBegin] |} in
  match callback c0 with
  | (inr a, c) =>
      (inr a,
       {| store := x_store c; clock := S (clock d); next_uuid := x_uuid c |},
       x_trace c ++ [ECommit])
  | (inl e, c) =>
      (inl e,
       {| store := store d; clock := S (clock d); next_uuid := x_uuid c |},
       x_trace c ++ [ERollback])
  end.

Definition auditService_log (action : AuditAction) (userId : string)
  (details : PlainObject) : M unit :=
  emit (EAuditLog action userId details) ;;;
  match action with
  | BALANCE_CHANGE | PASSWORD_RESET => emit (EAuditWarn action userId details)
  | _ => ret tt
  end.

Definition auditService_logBalanceChange (userId : string)
  (oldBalance newBalance : Z) (reason : string) : M unit :=
  auditService_log BALANCE_CHANGE userId
    [("oldBalance", VNum oldBalance); ("newBalance", VNum newBalance);
     ("change", VNum (newBalance - oldBalance)); ("reason", VStr reason)].

Definition auditService_logTransaction (userId : string)
  (transactionId : option Uuid) (type : string) (amount : Z) : M unit :=
  auditService_log TRANSACTION_CREATED userId
    (opt_entry "transactionId" VUuid transactionId ++
     [("type", VStr type); ("amount", VNum amount)]).

Definition emailService_sendTransactionConfirmationEmail (env : Env)
  (email transactionType : string) (amount balance : Z) : M unit :=
  emit (EEmail email transactionType amount balance) ;;;
  if email_configured env then
    emit (ESendMail email) ;;;
    if smtp_ok env then ret tt
    else emit (ELogError
                 (String.append "Failed to send transaction confirmation email to " email))
  else ret tt.

(** [user.balance = newBalance] *)
Definition set_balance (user : User) (newBalance : Z) : User :=
  {| u_id := u_id user; u_email := u_email user; u_balance := newBalance |}.

Definition deposit_callback (env : Env) (userId : string) (depositDto : DepositDto)
  : M Transaction :=
  let amount := dep_amount depositDto in
  let description := dep_description depositDto in
  user <- manager_findOne_User_by_id userId true ;;
  match user with
  | None => throw (NotFoundException "User not found")
  | Some user =>
    let oldBalance := u_balance user in
    let newBalance := oldBalance + amount in
    let user := set_balance user newBalance in
    _ <- manager_save_User env user ;;
    let transaction := manager_create_Transaction
      [("userId", VStr userId);
       ("type", VType DEPOSIT);
       ("amount", VNum amount);
       ("status", VStatus COMPLETED);
       ("description", VStr (or_else description "Deposit"));
       ("balanceAfter", VNum newBalance)] in
    savedTransaction <- manager_save_Transaction env transaction ;;
    auditService_logBalanceChange userId oldBalance newBalance "Deposit" ;;;
    auditService_logTransaction userId (t_id savedTransaction) "DEPOSIT" amount ;;;
    emailService_sendTransactionConfirmationEmail env
      (u_email user) "Deposit" amount newBalance ;;;
    ret savedTransaction
  end.

Definition deposit (env : Env) (d : Database) (userId : string)
  (depositDto : DepositDto) : (Exn + Transaction) * Database * list Event :=
  dataSource_transaction (deposit_callback env userId depositDto) d.

Definition withdraw_callback (env : Env) (userId : string) (withdrawDto : WithdrawDto)
  : M Transaction :=
  let amount := wd_amount withdrawDto in
  let description := wd_description withdrawDto in
  user <- manager_findOne_User_by_id userId true ;;
  match user with
  | None => throw (NotFoundException "User not found")
  | Some user =>
    let currentBalance := u_balance user in
    let withdrawalAmount := amount in
    if currentBalance <? withdrawalAmount then
      throw (BadRequestException "Insufficient funds")
    else
    let newBalance := currentBalance - withdrawalAmount in
    let user := set_balance user newBalance in
    _ <- manager_save_User env user ;;
    let transaction := manager_create_Transaction
      [("userId", VStr userId);
       ("type", VType WITHDRAWAL);
       ("amount", VNum withdrawalAmount);
       ("status", VStatus COMPLETED);
       ("description", VStr (or_else description "Withdrawal"));
       ("balanceAfter", VNum newBalance)] in
    savedTransaction <- manager_save_Transaction env transaction ;;
    auditService_logBalanceChange userId currentBalance newBalance "Withdrawal" ;;;
    auditService_logTransaction userId (t_id savedTransaction) "WITHDRAWAL"
      withdrawalAmount ;;;
    emailService_sendTransactionConfirmationEmail env
      (u_email user) "Withdrawal" withdrawalAmount newBalance ;;;
    ret savedTransaction
  end.

Definition withdraw (env : Env) (d : Database) (userId : string)
  (withdrawDto : WithdrawDto) : (Exn + Transaction) * Database * list Event :=
  dataSource_transaction (withdraw_callback env userId withdrawDto) d.

Definition transfer_callback (env : Env) (userId : string) (transferDto : TransferDto)
  : M Transaction :=
  let recipientEmail := tr_recipientEmail transferDto in
  let amount := tr_amount transferDto in
  let description := tr_description transferDto in
  recipient <- manager_findOne_User_by_email recipientEmail ;;
  match recipient with
  | None => throw (NotFoundException "Recipient not found")
  | Some recipient =>
    if String.eqb (u_id recipient) userId then
      throw (BadRequestException "Cannot transfer to yourself")
    else
    sender <- manager_findOne_User_by_id userId true ;;
    match sender with
    | None => throw (NotFoundException "Sender not found")
    | Some sender =>
      recipientLocked <- manager_findOne_User_by_id (u_id recipient) true ;;
      match recipientLocked with
      | None => throw (NotFoundException "Recipient not found")
      | Some recipientLocked =>
        let transferAmount := amount in
        let senderBalance := u_balance sender in
        if senderBalance <? transferAmount then
          throw (BadRequestException "Insufficient funds")
        else
        let senderNewBalance := senderBalance - transferAmount in
        let recipientNewBalance := u_balance recipientLocked + transferAmount in
        let sender := set_balance sender senderNewBalance in
        let recipientLocked := set_balance recipientLocked recipientNewBalance in
        _ <- manager_save_User env sender ;;
        _ <- manager_save_User env recipientLocked ;;
        let transaction := manager_create_Transaction
          [("userId", VStr userId);
           ("type", VType TRANSFER);
           ("amount", VNum transferAmount);
           ("status", VStatus COMPLETED);
           ("description",
            VStr (or_else description (String.append "Transfer to " recipientEmail)));
           ("recipientUserId", VStr (u_id recipient));
           ("balanceAfter", VNum senderNewBalance)] in
        savedTransaction <- manager_save_Transaction env transaction ;;
        auditService_logBalanceChange userId senderBalance senderNewBalance
          "Transfer" ;;;
        auditService_logTransaction userId (t_id savedTransaction) "TRANSFER"
          transferAmount ;;;
        let recipientTransaction := manager_create_Transaction
          [("userId", VStr (u_id recipient));
           ("type", VType TRANSFER);
           ("amount", VNum transferAmount);
           ("status", VStatus COMPLETED);
           ("description",
            VStr (or_else description (String.append "Transfer from " (u_email sender))));
           ("recipientUserId", VStr userId);
           ("balanceAfter", VNum recipientNewBalance)] in
        _ <- manager_save_Transaction env recipientTransaction ;;
        emailService_sendTransactionConfirmationEmail env
          (u_email sender) "Transfer" transferAmount senderNewBalance ;;;
        emailService_sendTransactionConfirmationEmail env
          (u_email recipient) "Transfer Received" transferAmount recipientNewBalance ;;;
        ret savedTransaction
      end
    end
  end.

Definition transfer (env : Env) (d : Database) (userId : string)
  (transferDto : TransferDto) : (Exn + Transaction) * Database * list Event :=
  dataSource_transaction (transfer_callback env userId transferDto) d.

(** [UserService.getBalance] of this version: [Number(user.balance)]. *)
Definition getBalance (d : Database) (userId : string) : Exn + Z :=
  match find (fun u => String.eqb (u_id u) userId) (users (store d)) with
  | None => inl (NotFoundException "User not found")
  | Some user => inr (u_balance user)
  end.

End Legacy.

(** ** The two versions side by side *)

Definition legacy_perform (d : Legacy.Database) (a : Action)
  : (Exn + Transaction) * Legacy.Database * list Event :=
  match a with
  | ADeposit env userId dto => Legacy.deposit env d userId dto
  | AWithdraw env userId dto => Legacy.withdraw env d userId dto
  | ATransfer env userId dto => Legacy.transfer env d userId dto
  end.

Fixpoint legacy_perform_all (d : Legacy.Database) (actions : list Action)
  : Legacy.Database :=
  match actions with
  | [] => d
  | a :: rest => legacy_perform_all (snd (fst (legacy_perform d a))) rest
  end.

Definition env_of (a : Action) : Env :=
  match a with
  | ADeposit env _ _ | AWithdraw env _ _ | ATransfer env _ _ => env
  end.

(** The storage accepts every insert and update of the call. *)
Definition storage_works (a : Action) : Prop := storage_fault (env_of a) = None.

Definition legacy_find_by_id (userId : string) (d : Legacy.Database)
  : option Legacy.User :=
  find (fun u => String.eqb (Legacy.u_id u) userId) (Legacy.users (Legacy.store d)).

Definition legacy_find_by_email (email : string) (d : Legacy.Database)
  : option Legacy.User :=
  find (fun u => String.eqb (Legacy.u_email u) email) (Legacy.users (Legacy.store d)).

(** The [users] table after [manager.save(user)]. *)
Definition legacy_saved (user : Legacy.User) (us : list Legacy.User)
  : list Legacy.User :=
  map (fun u => if String.eqb (Legacy.u_id u) (Legacy.u_id user) then user else u) us.

(** The user row without its balance column. *)
Definition forget (u : Legacy.User) : User :=
  {| u_id := Legacy.u_id u; u_email := Legacy.u_email u |}.

(** The same accounts, in the same order, at the same time, and the balance
    column of every account is the balance that the ledger gives it. *)
Definition agree (dL : Legacy.Database) (dN : Database) : Prop :=
  map forget (Legacy.users (Legacy.store dL)) = users (store dN)
  /\ (forall u, In u (Legacy.users (Legacy.store dL)) ->
                Legacy.u_balance u = current_balance dN (Legacy.u_id u))
  /\ NoDup (map Legacy.u_id (Legacy.users (Legacy.store dL)))
  /\ Legacy.clock dL = clock dN
  /\ well_timed dN.

Definition without_id (t : Transaction) : Transaction :=
  {| t_id := None;
     t_userId := t_userId t;
     t_type := t_type t;
     t_amount := t_amount t;
     t_status := t_status t;
     t_description := t_description t;
     t_recipientUserId := t_recipientUserId t;
     t_balanceAfter := t_balanceAfter t;
     t_createdAt := t_createdAt t |}.

(** The same exception, or the same transaction up to its generated id. *)
Definition same_outcome (rL rN : Exn + Transaction) : Prop :=
  match rL, rN with
  | inl e, inl e' => e = e'
  | inr t, inr t' => without_id t = without_id t'
  | _, _ => False
  end.

(** Accounts that all start with a balance of 0, and the empty ledger over
    the same accounts. *)
Definition legacy_start (accounts : list User) (now : nat) (next : Uuid)
  : Legacy.Database :=
  {| Legacy.store :=
       {| Legacy.users :=
            map (fun u => {| Legacy.u_id := u_id u; Legacy.u_email := u_email u;
                             Legacy.u_balance := 0 |}) accounts;
          Legacy.transactions := [] |};
     Legacy.clock := now;
     Legacy.next_uuid := next |}.

(** ** What a request asks the service to do *)

Definition user_of (c : Env * HttpRequest) : User :=
  match snd c with
  | PostDeposit user _ | PostWithdraw user _ | PostTransfer user _ => user
  end.

Definition balance_after_of (r : Exn + Transaction) : option Z :=
  match r with inr t => t_balanceAfter t | inl _ => None end.


(** * Properties *)

(** ** Closed forms of the three operations *)

Ltac run_monad :=
  unfold bind, ret, throw, emit, manager_findOne_User_by_id,
    manager_findOne_User_by_email, manager_findOne_Balance,
    manager_save_Transaction, manager_save_Balance,
    auditService_logBalanceChange, auditService_logTransaction, auditService_log,
    count_save; cbn.

Lemma emailService_run (env : Env) (email kind : string) (amount balance : Z)
  (c : TxCtx) :
  emailService_sendTransactionConfirmationEmail env email kind amount balance c
  = (inr tt, with_trace c (email_events env email kind amount balance)).
Proof.
  unfold emailService_sendTransactionConfirmationEmail, email_events, with_trace.
  run_monad.
  destruct (email_configured env); cbn; [|reflexivity].
  destruct (smtp_ok env); cbn; rewrite <- ?app_assoc; reflexivity.
Qed.

Arguments emailService_sendTransactionConfirmationEmail : simpl never.

Lemma deposit_unknown_user (env : Env) (d : Database) (userId : string)
  (dto : DepositDto) :
  find_by_id userId d = None ->
  deposit env d userId dto
  = (inl (NotFoundException "User not found"), rolled_back d 0, [EBegin; ERollback]).
Proof.
  unfold find_by_id, deposit, dataSource_transaction, deposit_callback.
  intros H. run_monad. rewrite H. reflexivity.
Qed.

Lemma deposit_run (env : Env) (d : Database) (userId : string)
  (dto : DepositDto) (user : User) :
  find_by_id userId d = Some user ->
  let b0 := current_balance d userId in
  let amount := dep_amount dto in
  let description := or_else (dep_description dto) "Deposit" in
  let t := stored_transaction (next_uuid d) (clock d) userId DEPOSIT amount
             description None (b0 + amount) in
  let b := stored_balance (S (next_uuid d)) (clock d) userId (next_uuid d)
             b0 (b0 + amount) description in
  deposit env d userId dto =
    if refused env 0 then
      (inl QueryFailedError, rolled_back d 0, [EBegin; ELock userId; ERollback])
    else if refused env 1 then
      (inl QueryFailedError, rolled_back d 1,
       [EBegin; ELock userId; EInsertTransaction (next_uuid d); ERollback])
    else
      (inr t, committed d [t] [b],
       [EBegin; ELock userId; EInsertTransaction (next_uuid d);
        EInsertBalance (S (next_uuid d))]
       ++ audit_events userId b0 (b0 + amount) "Deposit" (next_uuid d) "DEPOSIT" amount
       ++ email_events env (u_email user) "Deposit" amount (b0 + amount)
       ++ [ECommit]).
Proof.
  unfold find_by_id, current_balance, deposit, dataSource_transaction, deposit_callback.
  intros H. run_monad. rewrite H. cbn.
  destruct (refused env 0); cbn; [reflexivity|].
  destruct (refused env 1); cbn; [reflexivity|].
  rewrite emailService_run. cbn. rewrite <- ?app_assoc. reflexivity.
Qed.

Lemma withdraw_unknown_user (env : Env) (d : Database) (userId : string)
  (dto : WithdrawDto) :
  find_by_id userId d = None ->
  withdraw env d userId dto
  = (inl (NotFoundException "User not found"), rolled_back d 0, [EBegin; ERollback]).
Proof.
  unfold find_by_id, withdraw, dataSource_transaction, withdraw_callback.
  intros H. run_monad. rewrite H. reflexivity.
Qed.

Lemma withdraw_run (env : Env) (d : Database) (userId : string)
  (dto : WithdrawDto) (user : User) :
  find_by_id userId d = Some user ->
  let b0 := current_balance d userId in
  let amount := wd_amount dto in
  let description := or_else (wd_description dto) "Withdrawal" in
  let t := stored_transaction (next_uuid d) (clock d) userId WITHDRAWAL amount
             description None (b0 - amount) in
  let b := stored_balance (S (next_uuid d)) (clock d) userId (next_uuid d)
             b0 (b0 - amount) description in
  withdraw env d userId dto =
    if b0 <? amount then
      (inl (BadRequestException "Insufficient funds"), rolled_back d 0,
       [EBegin; ELock userId; ERollback])
    else if refused env 0 then
      (inl QueryFailedError, rolled_back d 0, [EBegin; ELock userId; ERollback])
    else if refused env 1 then
      (inl QueryFailedError, rolled_back d 1,
       [EBegin; ELock userId; EInsertTransaction (next_uuid d); ERollback])
    else
      (inr t, committed d [t] [b],
       [EBegin; ELock userId; EInsertTransaction (next_uuid d);
        EInsertBalance (S (next_uuid d))]
       ++ audit_events userId b0 (b0 - amount) "Withdrawal" (next_uuid d)
            "WITHDRAWAL" amount
       ++ email_events env (u_email user) "Withdrawal" amount (b0 - amount)
       ++ [ECommit]).
Proof.
  unfold find_by_id, current_balance, withdraw, dataSource_transaction,
    withdraw_callback.
  intros H. run_monad. rewrite H. cbn.
  destruct (_ <? _); cbn; [reflexivity|].
  destruct (refused env 0); cbn; [reflexivity|].
  destruct (refused env 1); cbn; [reflexivity|].
  rewrite emailService_run. cbn. rewrite <- ?app_assoc. reflexivity.
Qed.

(** A user found by email is found by its id as well. *)
Lemma find_by_id_of_found (d : Database) (email : string) (r : User) :
  find_by_email email d = Some r ->
  exists r', find_by_id (u_id r) d = Some r'.
Proof.
  unfold find_by_email, find_by_id. intros H.
  apply find_some in H. destruct H as [Hin _].
  destruct (find (fun u => String.eqb (u_id u) (u_id r)) (users (store d))) eqn:E.
  - eauto.
  - apply (find_none _ _ E) in Hin. rewrite String.eqb_refl in Hin. discriminate.
Qed.

Lemma transfer_unknown_recipient (env : Env) (d : Database) (userId : string)
  (dto : TransferDto) :
  find_by_email (tr_recipientEmail dto) d = None ->
  transfer env d userId dto
  = (inl (NotFoundException "Recipient not found"), rolled_back d 0,
     [EBegin; ERollback]).
Proof.
  unfold find_by_email, transfer, dataSource_transaction, transfer_callback.
  intros H. run_monad. rewrite H. reflexivity.
Qed.

Lemma transfer_to_self (env : Env) (d : Database) (userId : string)
  (dto : TransferDto) (recipient : User) :
  find_by_email (tr_recipientEmail dto) d = Some recipient ->
  u_id recipient = userId ->
  transfer env d userId dto
  = (inl (BadRequestException "Cannot transfer to yourself"), rolled_back d 0,
     [EBegin; ERollback]).
Proof.
  unfold find_by_email, transfer, dataSource_transaction, transfer_callback.
  intros H Hid. run_monad. rewrite H. cbn.
  rewrite Hid, String.eqb_refl. reflexivity.
Qed.

Lemma transfer_unknown_sender (env : Env) (d : Database) (userId : string)
  (dto : TransferDto) (recipient : User) :
  find_by_email (tr_recipientEmail dto) d = Some recipient ->
  u_id recipient <> userId ->
  find_by_id userId d = None ->
  transfer env d userId dto
  = (inl (NotFoundException "Sender not found"), rolled_back d 0,
     [EBegin; ERollback]).
Proof.
  unfold find_by_email, find_by_id, transfer, dataSource_transaction,
    transfer_callback.
  intros H Hid Hs. run_monad. rewrite H. cbn.
  apply String.eqb_neq in Hid. rewrite Hid. cbn. rewrite Hs. reflexivity.
Qed.

Lemma transfer_run (env : Env) (d : Database) (userId : string)
  (dto : TransferDto) (recipient sender : User) :
  find_by_email (tr_recipientEmail dto) d = Some recipient ->
  u_id recipient <> userId ->
  find_by_id userId d = Some sender ->
  let rid := u_id recipient in
  let bs0 := current_balance d userId in
  let br0 := current_balance d rid in
  let amount := tr_amount dto in
  let description_s :=
    or_else (tr_description dto)
      (String.append "Transfer to " (tr_recipientEmail dto)) in
  let description_r :=
    or_else (tr_description dto)
      (String.append "Transfer from " (u_email sender)) in
  let n := next_uuid d in
  let ts := stored_transaction n (clock d) userId TRANSFER amount
              description_s (Some rid) (bs0 - amount) in
  let bs := stored_balance (S n) (clock d) userId n bs0 (bs0 - amount)
              description_s in
  let tr := stored_transaction (S (S n)) (clock d) rid TRANSFER amount
              description_r (Some userId) (br0 + amount) in
  let br := stored_balance (S (S (S n))) (clock d) rid (S (S n)) br0 (br0 + amount)
              description_r in
  let locked := [EBegin; ELock userId; ELock rid] in
  let sender_leg :=
    [EInsertTransaction n; EInsertBalance (S n)]
    ++ audit_events userId bs0 (bs0 - amount) "Transfer" n "TRANSFER" amount in
  transfer env d userId dto =
    if bs0 <? amount then
      (inl (BadRequestException "Insufficient funds"), rolled_back d 0,
       locked ++ [ERollback])
    else if refused env 0 then
      (inl QueryFailedError, rolled_back d 0, locked ++ [ERollback])
    else if refused env 1 then
      (inl QueryFailedError, rolled_back d 1,
       locked ++ [EInsertTransaction n; ERollback])
    else if refused env 2 then
      (inl QueryFailedError, rolled_back d 2, locked ++ sender_leg ++ [ERollback])
    else if refused env 3 then
      (inl QueryFailedError, rolled_back d 3,
       locked ++ sender_leg ++ [EInsertTransaction (S (S n)); ERollback])
    else
      (inr ts, committed d [tr; ts] [br; bs],
       locked ++ sender_leg
       ++ [EInsertTransaction (S (S n)); EInsertBalance (S (S (S n)))]
       ++ email_events env (u_email sender) "Transfer" amount (bs0 - amount)
       ++ email_events env (u_email recipient) "Transfer Received" amount
            (br0 + amount)
       ++ [ECommit]).
Proof.
  intros H Hid Hs.
  destruct (find_by_id_of_found _ _ _ H) as [r' Hr'].
  revert H Hs Hr'.
  unfold find_by_email, find_by_id, current_balance, transfer,
    dataSource_transaction, transfer_callback.
  intros H Hs Hr'. run_monad. rewrite H. cbn.
  apply String.eqb_neq in Hid. rewrite Hid. cbn. rewrite Hs. cbn. rewrite Hr'. cbn.
  destruct (_ <? _); cbn; [reflexivity|].
  destruct (refused env 0); cbn; [reflexivity|].
  destruct (refused env 1); cbn; [reflexivity|].
  destruct (refused env 2); cbn; [reflexivity|].
  destruct (refused env 3); cbn; [reflexivity|].
  rewrite !emailService_run. cbn. rewrite <- ?app_assoc. reflexivity.
Qed.

(** ** Transfers *)

(** C1.  A transfer is all or nothing: either it returns the sender's
    transaction and the tables have grown by exactly two transactions and two
    balance entries, one leg for the sender and one for the recipient, both
    transactions with the amount of the request and the two balance entries
    moving by that amount in opposite directions; or it fails and the tables
    are what they were.  This holds for every state, every request and
    every storage failure. *)
Theorem transfer_atomic (env : Env) (d : Database) (userId : string)
  (dto : TransferDto) :
  let '(r, d', _) := transfer env d userId dto in
  (exists recipient tS tR bS bR bs0 br0,
      r = inr tS /\
      find_by_email (tr_recipientEmail dto) d = Some recipient /\
      transactions (store d') = tR :: tS :: transactions (store d) /\
      balances (store d') = bR :: bS :: balances (store d) /\
      users (store d') = users (store d) /\
      t_userId tS = Some userId /\ b_userId bS = Some userId /\
      b_transactionId bS = t_id tS /\
      t_userId tR = Some (u_id recipient) /\ b_userId bR = Some (u_id recipient) /\
      b_transactionId bR = t_id tR /\
      t_id tS <> t_id tR /\
      t_amount tS = Some (tr_amount dto) /\ t_amount tR = Some (tr_amount dto) /\
      b_balanceBefore bS = Some bs0 /\ b_balanceAfter bS = Some (bs0 - tr_amount dto) /\
      b_balanceBefore bR = Some br0 /\ b_balanceAfter bR = Some (br0 + tr_amount dto))
  \/ (exists e, r = inl e /\ store d' = store d).
Proof.
  destruct (find_by_email (tr_recipientEmail dto) d) as [recipient|] eqn:Hr.
  2:{ rewrite transfer_unknown_recipient by exact Hr. right. eauto. }
  destruct (String.string_dec (u_id recipient) userId) as [Hid|Hid].
  { rewrite (transfer_to_self env _ _ _ _ Hr Hid). right. eauto. }
  destruct (find_by_id userId d) as [sender|] eqn:Hs.
  2:{ rewrite (transfer_unknown_sender env _ _ _ _ Hr Hid Hs). right. eauto. }
  rewrite (transfer_run env _ _ _ _ _ Hr Hid Hs). cbv zeta.
  destruct (_ <? _); [right; eauto|].
  destruct (refused env 0); [right; eauto|].
  destruct (refused env 1); [right; eauto|].
  destruct (refused env 2); [right; eauto|].
  destruct (refused env 3); [right; eauto|].
  left. do 5 eexists. exists (current_balance d userId), (current_balance d (u_id recipient)).
  cbn. repeat split; try reflexivity.
  intros E. injection E as E. lia.
Qed.

(** C8.  A transfer to an address that resolves to no account fails with
    "Recipient not found", a transfer to the sender's own account fails with
    "Cannot transfer to yourself"; in both cases no row lock has been taken,
    no row is written and every balance is what it was. *)
Theorem transfer_rejected_before_locking (env : Env) (d : Database)
  (userId : string) (dto : TransferDto) :
  (find_by_email (tr_recipientEmail dto) d = None ->
   exists d' tr,
     transfer env d userId dto
     = (inl (NotFoundException "Recipient not found"), d', tr) /\
     locks_acquired tr = [] /\ store d' = store d /\
     forall u, current_balance d' u = current_balance d u)
  /\
  (forall recipient,
   find_by_email (tr_recipientEmail dto) d = Some recipient ->
   u_id recipient = userId ->
   exists d' tr,
     transfer env d userId dto
     = (inl (BadRequestException "Cannot transfer to yourself"), d', tr) /\
     locks_acquired tr = [] /\ store d' = store d /\
     forall u, current_balance d' u = current_balance d u).
Proof.
  split.
  - intros H. rewrite (transfer_unknown_recipient env _ userId _ H).
    do 2 eexists. repeat split.
  - intros recipient H Hid. rewrite (transfer_to_self env _ _ _ _ H Hid).
    do 2 eexists. repeat split.
Qed.

(** The lock trace of a transfer: the sender's row, then the recipient's. *)
Lemma transfer_locks (env : Env) (d : Database) (userId : string)
  (dto : TransferDto) (recipient sender : User) :
  find_by_email (tr_recipientEmail dto) d = Some recipient ->
  u_id recipient <> userId ->
  find_by_id userId d = Some sender ->
  locks_acquired (snd (transfer env d userId dto)) = [userId; u_id recipient].
Proof.
  intros Hr Hid Hs. rewrite (transfer_run env _ _ _ _ _ Hr Hid Hs). cbv zeta.
  destruct (_ <? _); [reflexivity|].
  destruct (refused env 0); [reflexivity|].
  destruct (refused env 1); [reflexivity|].
  destruct (refused env 2); [reflexivity|].
  destruct (refused env 3); [reflexivity|].
  cbn. unfold email_events.
  destruct (email_configured env), (smtp_ok env); reflexivity.
Qed.

(** Scenarios 4 and 5: A sends 10.00 to an unknown address, and to its own
    address. *)
Lemma transfer_rejected_before_locking_witness :
  (exists d' tr,
     transfer healthy bank100 "A"
       {| tr_recipientEmail := "unknown@example.com"; tr_amount := 1000;
          tr_description := None |}
     = (inl (NotFoundException "Recipient not found"), d', tr) /\
     locks_acquired tr = [] /\ store d' = store bank100 /\
     forall u, current_balance d' u = current_balance bank100 u)
  /\
  (exists d' tr,
     transfer healthy bank100 "A" (to_A 1000)
     = (inl (BadRequestException "Cannot transfer to yourself"), d', tr) /\
     locks_acquired tr = [] /\ store d' = store bank100 /\
     forall u, current_balance d' u = current_balance bank100 u).
Proof.
  split.
  - apply (transfer_rejected_before_locking healthy bank100 "A"
             {| tr_recipientEmail := "unknown@example.com"; tr_amount := 1000;
                tr_description := None |}).
    reflexivity.
  - apply (transfer_rejected_before_locking healthy bank100 "A" (to_A 1000))
      with (recipient := account_A); reflexivity.
Defined.

(** *** Lock order *)

(** C3, as the code has it.  A transfer locks the sender's row first and the
    recipient's row second, whatever the two identifiers are; it takes no
    lock at all when the recipient does not resolve, is the sender, or the
    sender does not exist. *)
Theorem transfer_locks_sender_then_recipient (env : Env) (d : Database)
  (userId : string) (dto : TransferDto) :
  locks_acquired (snd (transfer env d userId dto)) =
    match find_by_email (tr_recipientEmail dto) d with
    | None => []
    | Some recipient =>
        if String.eqb (u_id recipient) userId then []
        else match find_by_id userId d with
             | None => []
             | Some _ => [userId; u_id recipient]
             end
    end.
Proof.
  destruct (find_by_email (tr_recipientEmail dto) d) as [recipient|] eqn:Hr.
  2:{ rewrite (transfer_unknown_recipient env _ userId _ Hr). reflexivity. }
  destruct (String.eqb_spec (u_id recipient) userId) as [Hid|Hid].
  { rewrite (transfer_to_self env _ _ _ _ Hr Hid). reflexivity. }
  destruct (find_by_id userId d) as [sender|] eqn:Hs.
  2:{ rewrite (transfer_unknown_sender env _ _ _ _ Hr Hid Hs). reflexivity. }
  exact (transfer_locks env _ _ _ _ _ Hr Hid Hs).
Qed.

(** C3, as stated, fails: when B sends 10.00 to A the transfer completes with
    the locks taken in the order B, A, which is not the sorted order A, B, and
    which is the reverse of the order taken when A sends to B. *)
Lemma transfer_locks_not_canonical :
  (exists t d', fst (transfer healthy bank_AB "B" (to_A 1000)) = (inr t, d'))
  /\ locks_acquired (snd (transfer healthy bank_AB "B" (to_A 1000))) = ["B"; "A"]
  /\ canonical_order "B" "A" = ["A"; "B"]
  /\ locks_acquired (snd (transfer healthy bank_AB "B" (to_A 1000)))
     <> canonical_order "B" "A"
  /\ locks_acquired (snd (transfer healthy bank_AB "A" (to_B 1000)))
     <> locks_acquired (snd (transfer healthy bank_AB "B" (to_A 1000))).
Proof.
  split; [do 2 eexists; vm_compute; reflexivity|].
  repeat split; try (vm_compute; reflexivity); vm_compute; discriminate.
Qed.

(** ** Successful and failed runs *)

(** A storage transaction whose callback throws leaves the tables as they
    were. *)
Lemma dataSource_transaction_rollback {A} (callback : M A) (d d' : Database)
  (e : Exn) (tr : list Event) :
  dataSource_transaction callback d = (inl e, d', tr) ->
  store d' = store d /\ clock d' = S (clock d).
Proof.
  unfold dataSource_transaction.
  destruct (callback _) as [[e0|a] c]; intros H; inversion H; subst; auto.
Qed.

Lemma deposit_ok_inv (env : Env) (d d' : Database) (userId : string)
  (dto : DepositDto) (t : Transaction) (tr : list Event) :
  deposit env d userId dto = (inr t, d', tr) ->
  exists user,
    find_by_id userId d = Some user /\
    refused env 0 = false /\ refused env 1 = false /\
    let b0 := current_balance d userId in
    let amount := dep_amount dto in
    let description := or_else (dep_description dto) "Deposit" in
    let b := stored_balance (S (next_uuid d)) (clock d) userId (next_uuid d)
               b0 (b0 + amount) description in
    t = stored_transaction (next_uuid d) (clock d) userId DEPOSIT amount
          description None (b0 + amount) /\
    d' = committed d [t] [b] /\
    tr = [EBegin; ELock userId; EInsertTransaction (next_uuid d);
          EInsertBalance (S (next_uuid d))]
         ++ audit_events userId b0 (b0 + amount) "Deposit" (next_uuid d)
              "DEPOSIT" amount
         ++ email_events env (u_email user) "Deposit" amount (b0 + amount)
         ++ [ECommit].
Proof.
  intros H.
  destruct (find_by_id userId d) as [user|] eqn:Hu.
  2:{ rewrite (deposit_unknown_user env _ _ dto Hu) in H. discriminate. }
  rewrite (deposit_run env _ _ dto _ Hu) in H. cbv zeta in H.
  destruct (refused env 0); [discriminate|].
  destruct (refused env 1); [discriminate|].
  inversion H; subst. exists user. cbv zeta. repeat split; reflexivity.
Qed.

Lemma withdraw_ok_inv (env : Env) (d d' : Database) (userId : string)
  (dto : WithdrawDto) (t : Transaction) (tr : list Event) :
  withdraw env d userId dto = (inr t, d', tr) ->
  exists user,
    find_by_id userId d = Some user /\
    refused env 0 = false /\ refused env 1 = false /\
    wd_amount dto <= current_balance d userId /\
    let b0 := current_balance d userId in
    let amount := wd_amount dto in
    let description := or_else (wd_description dto) "Withdrawal" in
    let b := stored_balance (S (next_uuid d)) (clock d) userId (next_uuid d)
               b0 (b0 - amount) description in
    t = stored_transaction (next_uuid d) (clock d) userId WITHDRAWAL amount
          description None (b0 - amount) /\
    d' = committed d [t] [b] /\
    tr = [EBegin; ELock userId; EInsertTransaction (next_uuid d);
          EInsertBalance (S (next_uuid d))]
         ++ audit_events userId b0 (b0 - amount) "Withdrawal" (next_uuid d)
              "WITHDRAWAL" amount
         ++ email_events env (u_email user) "Withdrawal" amount (b0 - amount)
         ++ [ECommit].
Proof.
  intros H.
  destruct (find_by_id userId d) as [user|] eqn:Hu.
  2:{ rewrite (withdraw_unknown_user env _ _ dto Hu) in H. discriminate. }
  rewrite (withdraw_run env _ _ dto _ Hu) in H. cbv zeta in H.
  destruct (Z.ltb_spec (current_balance d userId) (wd_amount dto)); [discriminate|].
  destruct (refused env 0); [discriminate|].
  destruct (refused env 1); [discriminate|].
  inversion H; subst. exists user. cbv zeta. repeat split; try reflexivity.
  assumption.
Qed.

Lemma transfer_ok_inv (env : Env) (d d' : Database) (userId : string)
  (dto : TransferDto) (t : Transaction) (tr : list Event) :
  transfer env d userId dto = (inr t, d', tr) ->
  exists recipient sender,
    find_by_email (tr_recipientEmail dto) d = Some recipient /\
    u_id recipient <> userId /\
    find_by_id userId d = Some sender /\
    tr_amount dto <= current_balance d userId /\
    let rid := u_id recipient in
    let bs0 := current_balance d userId in
    let br0 := current_balance d rid in
    let amount := tr_amount dto in
    let description_s :=
      or_else (tr_description dto)
        (String.append "Transfer to " (tr_recipientEmail dto)) in
    let description_r :=
      or_else (tr_description dto)
        (String.append "Transfer from " (u_email sender)) in
    let n := next_uuid d in
    let bs := stored_balance (S n) (clock d) userId n bs0 (bs0 - amount)
                description_s in
    let tR := stored_transaction (S (S n)) (clock d) rid TRANSFER amount
                description_r (Some userId) (br0 + amount) in
    let br := stored_balance (S (S (S n))) (clock d) rid (S (S n)) br0
                (br0 + amount) description_r in
    t = stored_transaction n (clock d) userId TRANSFER amount
          description_s (Some rid) (bs0 - amount) /\
    d' = committed d [tR; t] [br; bs] /\
    tr = [EBegin; ELock userId; ELock rid]
         ++ ([EInsertTransaction n; EInsertBalance (S n)]
             ++ audit_events userId bs0 (bs0 - amount) "Transfer" n "TRANSFER" amount)
         ++ [EInsertTransaction (S (S n)); EInsertBalance (S (S (S n)))]
         ++ email_events env (u_email sender) "Transfer" amount (bs0 - amount)
         ++ email_events env (u_email recipient) "Transfer Received" amount
              (br0 + amount)
         ++ [ECommit].
Proof.
  intros H.
  destruct (find_by_email (tr_recipientEmail dto) d) as [recipient|] eqn:Hr.
  2:{ rewrite (transfer_unknown_recipient env _ userId _ Hr) in H. discriminate. }
  destruct (String.string_dec (u_id recipient) userId) as [Hid|Hid].
  { rewrite (transfer_to_self env _ _ _ _ Hr Hid) in H. discriminate. }
  destruct (find_by_id userId d) as [sender|] eqn:Hs.
  2:{ rewrite (transfer_unknown_sender env _ _ _ _ Hr Hid Hs) in H. discriminate. }
  rewrite (transfer_run env _ _ _ _ _ Hr Hid Hs) in H. cbv zeta in H.
  destruct (Z.ltb_spec (current_balance d userId) (tr_amount dto)); [discriminate|].
  destruct (refused env 0); [discriminate|].
  destruct (refused env 1); [discriminate|].
  destruct (refused env 2); [discriminate|].
  destruct (refused env 3); [discriminate|].
  inversion H; subst. exists recipient, sender. cbv zeta.
  repeat split; try reflexivity; assumption.
Qed.

(** ** Audit and notification calls *)




(** The audit calls of a transfer are issued after the sender's rows and
    before the recipient's: when the insert of the recipient's transaction
    is refused, the transfer is rolled back and nothing is stored, but the
    balance change of the sender has been reported to the audit log. *)
Example transfer_audited_then_rolled_back :
  let '(r, d', tr) :=
    transfer {| storage_fault := Some 2%nat; email_configured := true; smtp_ok := true |}
      bank150 "A" (to_B 15000) in
  r = inl QueryFailedError
  /\ store d' = store bank150
  /\ In (EAuditLog BALANCE_CHANGE "A"
           [("oldBalance", VNum 15000); ("newBalance", VNum 0);
            ("change", VNum (-15000)); ("reason", VStr "Transfer")]) tr
  /\ last tr EBegin = ERollback.
Proof.
  vm_compute. repeat split. do 5 right. left. reflexivity.
Qed.


(** ** Withdrawals and deposits *)

Lemma refused_none (env : Env) (n : nat) :
  storage_fault env = None -> refused env n = false.
Proof. unfold refused. intros ->. reflexivity. Qed.

(** C5.  For an existing account with balance [b0]: when [b0 - amount < 0]
    the withdrawal fails with "Insufficient funds", no row is written and the
    balance is still [b0]; otherwise (the storage accepting the two inserts)
    exactly one WITHDRAWAL transaction and one balance entry are appended,
    the entry with [balanceBefore = b0] and [balanceAfter = b0 - amount]. *)
Theorem withdraw_guard (env : Env) (d : Database) (userId : string)
  (dto : WithdrawDto) (user : User) :
  find_by_id userId d = Some user ->
  let b0 := current_balance d userId in
  let amount := wd_amount dto in
  (b0 - amount < 0 ->
   exists d' tr,
     withdraw env d userId dto
     = (inl (BadRequestException "Insufficient funds"), d', tr) /\
     store d' = store d /\
     current_balance d' userId = b0)
  /\
  (0 <= b0 - amount -> storage_fault env = None ->
   exists t b d' tr,
     withdraw env d userId dto = (inr t, d', tr) /\
     transactions (store d') = t :: transactions (store d) /\
     balances (store d') = b :: balances (store d) /\
     users (store d') = users (store d) /\
     t_userId t = Some userId /\ t_type t = Some WITHDRAWAL /\
     t_status t = Some COMPLETED /\ t_amount t = Some amount /\
     t_balanceAfter t = Some (b0 - amount) /\
     b_userId b = Some userId /\ b_transactionId b = t_id t /\
     b_balanceBefore b = Some b0 /\ b_balanceAfter b = Some (b0 - amount)).
Proof.
  intros Hu b0 amount. rewrite (withdraw_run env _ _ dto _ Hu). cbv zeta.
  fold b0 amount. split.
  - intros Hlt. destruct (Z.ltb_spec b0 amount); [|lia].
    do 2 eexists. repeat split.
  - intros Hge Hs. destruct (Z.ltb_spec b0 amount); [lia|].
    rewrite !(refused_none env) by exact Hs.
    do 4 eexists. repeat split.
Qed.

(** Scenario 1 and its complement: with 100.00 on the account, a withdrawal
    of 150.00 is refused and a withdrawal of 30.00 appends one pair. *)
Lemma withdraw_guard_witness :
  (exists d' tr,
     withdraw healthy bank100 "A" {| wd_amount := 15000; wd_description := None |}
     = (inl (BadRequestException "Insufficient funds"), d', tr) /\
     store d' = store bank100 /\
     current_balance d' "A" = 10000)
  /\
  (exists t b d' tr,
     withdraw healthy bank100 "A" {| wd_amount := 3000; wd_description := None |}
     = (inr t, d', tr) /\
     transactions (store d') = t :: transactions (store bank100) /\
     balances (store d') = b :: balances (store bank100) /\
     users (store d') = users (store bank100) /\
     t_userId t = Some "A" /\ t_type t = Some WITHDRAWAL /\
     t_status t = Some COMPLETED /\ t_amount t = Some 3000 /\
     t_balanceAfter t = Some (10000 - 3000) /\
     b_userId b = Some "A" /\ b_transactionId b = t_id t /\
     b_balanceBefore b = Some 10000 /\ b_balanceAfter b = Some (10000 - 3000)).
Proof.
  split.
  - apply (withdraw_guard healthy bank100 "A"
             {| wd_amount := 15000; wd_description := None |} account_A eq_refl).
    vm_compute. reflexivity.
  - apply (withdraw_guard healthy bank100 "A"
             {| wd_amount := 3000; wd_description := None |} account_A eq_refl).
    + vm_compute. discriminate.
    + reflexivity.
Defined.

(** No transaction row has a [balanceBefore] entry: the entity has no such
    column. *)
Lemma Transaction_row_no_balanceBefore (t : Transaction) :
  prop "balanceBefore" (Transaction_row t) = None.
Proof.
  destruct t as [i u ty a s de r ba c].
  destruct i, u, ty, a, s, de, r, ba, c; reflexivity.
Qed.

(** Every successful deposit onto a latest balance [b0] appends exactly one
    transaction and one balance entry and returns the transaction, a
    COMPLETED DEPOSIT with [balanceAfter = b0 + amount]; the balance entry
    belongs to it and holds [balanceBefore = b0] and
    [balanceAfter = b0 + amount]. *)
Lemma deposit_appends_pair (env : Env) (d d' : Database) (userId : string)
  (dto : DepositDto) (t : Transaction) (tr : list Event) :
  deposit env d userId dto = (inr t, d', tr) ->
  let b0 := current_balance d userId in
  exists b,
    transactions (store d') = t :: transactions (store d) /\
    balances (store d') = b :: balances (store d) /\
    users (store d') = users (store d) /\
    t_userId t = Some userId /\ t_type t = Some DEPOSIT /\
    t_status t = Some COMPLETED /\ t_amount t = Some (dep_amount dto) /\
    t_balanceAfter t = Some (b0 + dep_amount dto) /\
    b_userId b = Some userId /\ b_transactionId b = t_id t /\
    b_balanceBefore b = Some b0 /\ b_balanceAfter b = Some (b0 + dep_amount dto).
Proof.
  intros H b0.
  destruct (deposit_ok_inv _ _ _ _ _ _ _ H) as (u & _ & _ & _ & -> & -> & _).
  eexists. cbn. repeat split.
Qed.

(** C7 at the deposit of scenario 2 (50.00 onto a balance of 100.00).  The
    deposit appends one transaction and one balance entry and returns the
    transaction, a COMPLETED DEPOSIT.  The service passes [balanceBefore] and
    [balanceAfter] to both [manager.create] calls, but only the balance entry
    keeps both: the stored transaction holds [balanceAfter = 150.00] and has
    no [balanceBefore]. *)
Theorem deposit_transaction_drops_balanceBefore :
  let '(r, d', _) := deposit healthy bank100 "A"
                       {| dep_amount := 5000; dep_description := None |} in
  exists t b,
    r = inr t /\
    transactions (store d') = t :: transactions (store bank100) /\
    balances (store d') = b :: balances (store bank100) /\
    current_balance bank100 "A" = 10000 /\
    prop "type" (Transaction_row t) = Some (VType DEPOSIT) /\
    prop "status" (Transaction_row t) = Some (VStatus COMPLETED) /\
    prop "balanceAfter" (Transaction_row t) = Some (VNum 15000) /\
    prop "balanceBefore" (Transaction_row t) = None /\
    b_transactionId b = t_id t /\
    prop "balanceBefore" (Balance_row b) = Some (VNum 10000) /\
    prop "balanceAfter" (Balance_row b) = Some (VNum 15000).
Proof.
  vm_compute. do 2 eexists. repeat split.
Qed.

(** ** The balance chain *)

Lemma latest_of_In (userId : string) (rows : list Balance) (b : Balance) :
  latest_of userId rows = Some b -> In b rows.
Proof.
  induction rows as [|b0 rows IH]; cbn; [discriminate|].
  destruct (opt_str_eqb (b_userId b0) userId).
  - destruct (latest_of userId rows) as [b'|].
    + match goal with |- context [if ?c then _ else _] => destruct c end;
        intros H; inversion H; subst; auto.
    + intros H; inversion H; auto.
  - auto.
Qed.

Lemma latest_of_older (userId : string) (rows : list Balance) (b : Balance) (now : nat) :
  Forall (fun b' => (created (b_createdAt b') < now)%nat) rows ->
  latest_of userId rows = Some b ->
  (created (b_createdAt b) < now)%nat.
Proof.
  intros Hold E. apply latest_of_In in E.
  rewrite Forall_forall in Hold. exact (Hold _ E).
Qed.

(** A row saved now, on top of rows of which none of the same account is
    younger, is the latest row of its account. *)
Lemma latest_of_new (userId : string) (rows : list Balance) (b : Balance) (now : nat) :
  (forall b', latest_of userId rows = Some b' ->
              (created (b_createdAt b') <= now)%nat) ->
  b_userId b = Some userId ->
  b_createdAt b = Some now ->
  latest_of userId (b :: rows) = Some b.
Proof.
  intros Hold Hu Hc. cbn [latest_of]. rewrite Hu. cbn [opt_str_eqb].
  rewrite String.eqb_refl.
  destruct (latest_of userId rows) as [b'|] eqn:E; [|reflexivity].
  specialize (Hold _ eq_refl). rewrite Hc.
  change (created (Some now)) with now.
  destruct (Nat.ltb_spec now (created (b_createdAt b'))); [lia|reflexivity].
Qed.

Lemma latest_of_other (userId : string) (rows : list Balance) (b : Balance) (other : string) :
  b_userId b = Some other -> other <> userId ->
  latest_of userId (b :: rows) = latest_of userId rows.
Proof.
  intros Hu Hne. cbn. rewrite Hu. cbn.
  apply String.eqb_neq in Hne. rewrite Hne. reflexivity.
Qed.

Lemma well_timed_rolled_back (d d' : Database) :
  store d' = store d -> clock d' = S (clock d) -> well_timed d -> well_timed d'.
Proof.
  unfold well_timed. intros -> ->. apply Forall_impl. intros b. lia.
Qed.

Lemma well_timed_committed (d : Database) (ts : list Transaction) (bs : list Balance) :
  Forall (fun b => b_createdAt b = Some (clock d)) bs ->
  well_timed d -> well_timed (committed d ts bs).
Proof.
  unfold well_timed, committed. cbn. intros Hnew Hold.
  apply Forall_app. split.
  - revert Hnew. apply Forall_impl. intros b ->. cbn. lia.
  - revert Hold. apply Forall_impl. intros b. lia.
Qed.

Lemma well_timed_empty_ledger (accounts : list User) (now : nat) (next : Uuid) :
  well_timed (empty_ledger accounts now next).
Proof. constructor. Qed.

Lemma well_timed_deposit (env : Env) (d : Database) (userId : string)
  (dto : DepositDto) :
  well_timed d -> well_timed (snd (fst (deposit env d userId dto))).
Proof.
  intros Hwf.
  destruct (deposit env d userId dto) as [[[e|t] d'] tr] eqn:E; cbn [fst snd].
  - destruct (dataSource_transaction_rollback _ _ _ _ _ E) as [Hs Hc].
    exact (well_timed_rolled_back _ _ Hs Hc Hwf).
  - destruct (deposit_ok_inv _ _ _ _ _ _ _ E) as (u & _ & _ & _ & _ & -> & _).
    apply well_timed_committed; [repeat constructor | exact Hwf].
Qed.

Lemma well_timed_withdraw (env : Env) (d : Database) (userId : string)
  (dto : WithdrawDto) :
  well_timed d -> well_timed (snd (fst (withdraw env d userId dto))).
Proof.
  intros Hwf.
  destruct (withdraw env d userId dto) as [[[e|t] d'] tr] eqn:E; cbn [fst snd].
  - destruct (dataSource_transaction_rollback _ _ _ _ _ E) as [Hs Hc].
    exact (well_timed_rolled_back _ _ Hs Hc Hwf).
  - destruct (withdraw_ok_inv _ _ _ _ _ _ _ E) as (u & _ & _ & _ & _ & _ & -> & _).
    apply well_timed_committed; [repeat constructor | exact Hwf].
Qed.

Lemma well_timed_transfer (env : Env) (d : Database) (userId : string)
  (dto : TransferDto) :
  well_timed d -> well_timed (snd (fst (transfer env d userId dto))).
Proof.
  intros Hwf.
  destruct (transfer env d userId dto) as [[[e|t] d'] tr] eqn:E; cbn [fst snd].
  - destruct (dataSource_transaction_rollback _ _ _ _ _ E) as [Hs Hc].
    exact (well_timed_rolled_back _ _ Hs Hc Hwf).
  - destruct (transfer_ok_inv _ _ _ _ _ _ _ E)
      as (r & s0 & _ & _ & _ & _ & _ & -> & _).
    apply well_timed_committed; [repeat constructor | exact Hwf].
Qed.

(** [UserService.getBalance] of an existing account is the balance that the
    operations read. *)
Lemma getBalance_current_balance (d : Database) (userId : string) (user : User) :
  find_by_id userId d = Some user ->
  getBalance d userId = inr (current_balance d userId).
Proof. unfold find_by_id, getBalance, current_balance. intros ->. reflexivity. Qed.

(** The balance of an account after one pair for it has been committed. *)
Lemma current_balance_committed_one (d : Database) (ts : list Transaction)
  (id txid : Uuid) (userId description : string) (before after : Z) :
  well_timed d ->
  current_balance
    (committed d ts [stored_balance id (clock d) userId txid before after description])
    userId = after.
Proof.
  intros Hwf. unfold current_balance, committed. cbn [store balances app].
  erewrite latest_of_new; [reflexivity| | reflexivity | reflexivity].
  intros b' E. apply Nat.lt_le_incl. exact (latest_of_older _ _ _ _ Hwf E).
Qed.

(** C6.  After a successful transfer of [x] from A (balance [a]) to B
    (balance [b]), A's balance is [a - x] and B's is [b + x], so their sum is
    unchanged; the two new transaction rows are A's and B's, each names the
    other account as [recipientUserId], and both are COMPLETED. *)
Theorem transfer_conserves_sum (env : Env) (d d' : Database) (userId : string)
  (dto : TransferDto) (recipient : User) (t : Transaction) (tr : list Event) :
  well_timed d ->
  find_by_email (tr_recipientEmail dto) d = Some recipient ->
  transfer env d userId dto = (inr t, d', tr) ->
  let a := current_balance d userId in
  let b := current_balance d (u_id recipient) in
  let x := tr_amount dto in
  current_balance d' userId = a - x /\
  current_balance d' (u_id recipient) = b + x /\
  current_balance d' userId + current_balance d' (u_id recipient) = a + b /\
  exists tB,
    transactions (store d') = tB :: t :: transactions (store d) /\
    t_userId t = Some userId /\ t_recipientUserId t = Some (u_id recipient) /\
    t_userId tB = Some (u_id recipient) /\ t_recipientUserId tB = Some userId /\
    t_status t = Some COMPLETED /\ t_status tB = Some COMPLETED /\
    t_type t = Some TRANSFER /\ t_type tB = Some TRANSFER.
Proof.
  intros Hwf Hr H a b x.
  destruct (transfer_ok_inv _ _ _ _ _ _ _ H)
    as (recipient' & sender & Hr' & Hid & Hs & Hle & Ht & Hd & _).
  rewrite Hr in Hr'. inversion Hr'; subst recipient'. clear Hr'.
  assert (Ha : current_balance d' userId = a - x).
  { rewrite Hd. unfold current_balance, committed. cbn [store balances app].
    erewrite latest_of_other; [| reflexivity | exact Hid].
    erewrite latest_of_new; [reflexivity | | reflexivity | reflexivity].
    intros b' E. apply Nat.lt_le_incl. exact (latest_of_older _ _ _ _ Hwf E). }
  assert (Hb : current_balance d' (u_id recipient) = b + x).
  { rewrite Hd. unfold current_balance, committed. cbn [store balances app].
    erewrite latest_of_new; [reflexivity | | reflexivity | reflexivity].
    intros b'. erewrite latest_of_other; [| reflexivity | intros E; exact (Hid (eq_sym E))].
    intros E. apply Nat.lt_le_incl. exact (latest_of_older _ _ _ _ Hwf E). }
  repeat split; try assumption.
  - rewrite Ha, Hb. lia.
  - eexists. rewrite Hd, Ht. cbn. repeat split.
Qed.

Lemma transfer_conserves_sum_witness :
  well_timed bank150 /\
  current_balance (snd (fst scenario3)) "A" = 15000 - 15000 /\
  current_balance (snd (fst scenario3)) "B" = 0 + 15000.
Proof.
  assert (Hwf : well_timed bank150).
  { unfold well_timed. vm_compute. repeat constructor. }
  split; [exact Hwf|].
  assert (E : transfer healthy bank150 "A" (to_B 15000)
              = (fst (fst scenario3), snd (fst scenario3), snd scenario3))
    by (vm_compute; reflexivity).
  destruct (transfer_conserves_sum healthy bank150 _ "A" (to_B 15000) account_B _ _
              Hwf eq_refl E) as (Ha & Hb & _).
  split; [exact Ha | exact Hb].
Defined.

(** ** Balance conservation on one account *)

Lemma pow10_pos (p : nat) : 0 < pow10 p.
Proof. unfold pow10. apply Z.pow_pos_nonneg; lia. Qed.

(** An amount that passes the validation is at least one cent. *)
Lemma validate_amount_ok (op : string) (a : Decimal) :
  validate_amount op a = [] -> 1 <= cents a.
Proof.
  unfold validate_amount, violated, Min_0_01, cents.
  destruct (IsNumber_maxDecimalPlaces 2 a); [|discriminate].
  destruct (IsPositive a); [|discriminate].
  destruct (Z.leb_spec (pow10 (places a)) (mantissa a * 100)); [|discriminate].
  intros _. pose proof (pow10_pos (places a)).
  apply Z.div_le_lower_bound; lia.
Qed.

Lemma current_balance_same_store (d d' : Database) (userId : string) :
  store d' = store d -> current_balance d' userId = current_balance d userId.
Proof. unfold current_balance. intros ->. reflexivity. Qed.

(** One request: an accepted deposit adds its amount, an accepted
    withdrawal takes its amount away, a rejected request changes nothing,
    and the balance stays non-negative. *)
Lemma call_step (user : User) (d : Database) (c : Env * Request) :
  well_timed d ->
  0 <= current_balance d (u_id user) ->
  well_timed (after user d c) /\
  0 <= current_balance (after user d c) (u_id user) /\
  current_balance (after user d c) (u_id user)
  = current_balance d (u_id user)
    + (if accepted user d c then deposited c else 0)
    - (if accepted user d c then withdrawn c else 0).
Proof.
  intros Hwf Hpos. destruct c as [env [body|body]];
    unfold after, accepted, deposited, withdrawn, call, controller_deposit,
      controller_withdraw, ValidationPipe; cbn [fst snd].
  - destruct (validate_amount "deposit" (depb_amount body)) eqn:V;
      [|cbn; repeat split; auto; lia].
    apply validate_amount_ok in V.
    destruct (deposit env d (u_id user) _) as [[[e|t] d'] tr] eqn:E; cbn [fst snd].
    + destruct (dataSource_transaction_rollback _ _ _ _ _ E) as [Hs Hc].
      rewrite (current_balance_same_store _ _ _ Hs).
      repeat split; [exact (well_timed_rolled_back _ _ Hs Hc Hwf) | lia | lia].
    + destruct (deposit_ok_inv _ _ _ _ _ _ _ E) as (u & _ & _ & _ & _ & Hd & _).
      cbn [dep_amount] in Hd. rewrite Hd.
      rewrite current_balance_committed_one by exact Hwf.
      repeat split; [| lia | lia].
      apply well_timed_committed; [repeat constructor | exact Hwf].
  - destruct (validate_amount "withdrawal" (wdb_amount body)) eqn:V;
      [|cbn; repeat split; auto; lia].
    apply validate_amount_ok in V.
    destruct (withdraw env d (u_id user) _) as [[[e|t] d'] tr] eqn:E; cbn [fst snd].
    + destruct (dataSource_transaction_rollback _ _ _ _ _ E) as [Hs Hc].
      rewrite (current_balance_same_store _ _ _ Hs).
      repeat split; [exact (well_timed_rolled_back _ _ Hs Hc Hwf) | lia | lia].
    + destruct (withdraw_ok_inv _ _ _ _ _ _ _ E) as (u & _ & _ & _ & Hle & _ & Hd & _).
      cbn [wd_amount] in Hd, Hle. rewrite Hd.
      rewrite current_balance_committed_one by exact Hwf.
      repeat split; [| lia | lia].
      apply well_timed_committed; [repeat constructor | exact Hwf].
Qed.

Lemma run_balance (user : User) (calls : list (Env * Request)) :
  forall d,
    well_timed d ->
    0 <= current_balance d (u_id user) ->
    current_balance (run user d calls) (u_id user)
    = current_balance d (u_id user)
      + accepted_deposits user d calls - accepted_withdrawals user d calls
    /\ Forall (fun d' => 0 <= current_balance d' (u_id user)) (history user d calls).
Proof.
  induction calls as [|c rest IH]; intros d Hwf Hpos; cbn.
  - split; [lia | repeat constructor; exact Hpos].
  - destruct (call_step user d c Hwf Hpos) as (Hwf' & Hpos' & Hstep).
    destruct (IH _ Hwf' Hpos') as [Hbal Hhist].
    split; [rewrite Hbal, Hstep; lia | constructor; assumption].
Qed.

(** C2.  Starting from an empty ledger, after any sequence of deposit and
    withdraw requests of one account (each in any environment), the balance
    of the account is the sum of the accepted deposits minus the sum of the
    accepted withdrawals, and the balance is non-negative in every database
    the sequence goes through. *)
Theorem balance_conservation (accounts : list User) (now : nat) (next : Uuid)
  (user : User) (calls : list (Env * Request)) :
  let d0 := empty_ledger accounts now next in
  current_balance d0 (u_id user) = 0 /\
  current_balance (run user d0 calls) (u_id user)
  = accepted_deposits user d0 calls - accepted_withdrawals user d0 calls /\
  Forall (fun d => 0 <= current_balance d (u_id user)) (history user d0 calls).
Proof.
  intros d0.
  assert (H0 : current_balance d0 (u_id user) = 0) by reflexivity.
  assert (Hwf : well_timed d0) by constructor.
  destruct (run_balance user calls d0 Hwf) as [Hbal Hhist]; [lia|].
  split; [exact H0 | split; [rewrite Hbal, H0; lia | exact Hhist]].
Qed.

(** The service by itself does not check the amount: called directly with
    -5.00 on an empty ledger, [deposit] commits a balance of -5.00.  The
    validation in front of the controller is what keeps such amounts out. *)
Example service_deposit_is_unvalidated :
  current_balance
    (snd (fst (deposit healthy bank0 "A"
                 {| dep_amount := -500; dep_description := None |}))) "A" = -500.
Proof. vm_compute. reflexivity. Qed.

(** ** Validation of the amount *)





(** ** Transaction history *)





(** * Further properties of the service *)

(** ** The shape of one call *)

Lemma deposit_grows (env : Env) (d : Database) (userId : string) (dto : DepositDto) :
  grows d (database_of (deposit env d userId dto)).
Proof.
  unfold database_of.
  destruct (find_by_id userId d) as [user|] eqn:Hu.
  2:{ rewrite (deposit_unknown_user env _ _ dto Hu). apply grows_rollback. }
  rewrite (deposit_run env _ _ dto _ Hu). cbv zeta.
  destruct (refused env 0); [apply grows_rollback|].
  destruct (refused env 1); [apply grows_rollback|].
  cbn [fst snd]. eapply grows_pair; [exact Hu | left; split; reflexivity].
Qed.

Lemma withdraw_grows (env : Env) (d : Database) (userId : string) (dto : WithdrawDto) :
  grows d (database_of (withdraw env d userId dto)).
Proof.
  unfold database_of.
  destruct (find_by_id userId d) as [user|] eqn:Hu.
  2:{ rewrite (withdraw_unknown_user env _ _ dto Hu). apply grows_rollback. }
  rewrite (withdraw_run env _ _ dto _ Hu). cbv zeta.
  destruct (Z.ltb_spec (current_balance d userId) (wd_amount dto));
    [apply grows_rollback|].
  destruct (refused env 0); [apply grows_rollback|].
  destruct (refused env 1); [apply grows_rollback|].
  cbn [fst snd].
  pose proof (grows_pair d userId user WITHDRAWAL (wd_amount dto) (- wd_amount dto)
                (or_else (wd_description dto) "Withdrawal") Hu) as G.
  cbv zeta in G. rewrite Z.add_opp_r in G. apply G.
  right. repeat split. assumption.
Qed.

Lemma transfer_grows (env : Env) (d : Database) (userId : string) (dto : TransferDto) :
  grows d (database_of (transfer env d userId dto)).
Proof.
  unfold database_of.
  destruct (find_by_email (tr_recipientEmail dto) d) as [recipient|] eqn:Hr.
  2:{ rewrite (transfer_unknown_recipient env _ userId _ Hr). apply grows_rollback. }
  destruct (String.string_dec (u_id recipient) userId) as [Hid|Hid].
  { rewrite (transfer_to_self env _ _ _ _ Hr Hid). apply grows_rollback. }
  destruct (find_by_id userId d) as [sender|] eqn:Hs.
  2:{ rewrite (transfer_unknown_sender env _ _ _ _ Hr Hid Hs). apply grows_rollback. }
  rewrite (transfer_run env _ _ _ _ _ Hr Hid Hs). cbv zeta.
  destruct (Z.ltb_spec (current_balance d userId) (tr_amount dto));
    [apply grows_rollback|].
  destruct (refused env 0); [apply grows_rollback|].
  destruct (refused env 1); [apply grows_rollback|].
  destruct (refused env 2); [apply grows_rollback|].
  destruct (refused env 3); [apply grows_rollback|].
  cbn [fst snd]. eapply grows_transfer; try eassumption.
  unfold find_by_email in Hr. apply find_some in Hr. apply Hr.
Qed.

Lemma perform_grows (d : Database) (a : Action) :
  grows d (database_of (perform d a)).
Proof.
  destruct a; cbn [perform];
    [apply deposit_grows | apply withdraw_grows | apply transfer_grows].
Qed.

Lemma grows_users (d d' : Database) :
  grows d d' -> users (store d') = users (store d).
Proof. intros G. destruct G; reflexivity. Qed.

Lemma grows_clock (d d' : Database) :
  grows d d' -> clock d' = S (clock d).
Proof. intros G. destruct G; reflexivity. Qed.

Lemma well_timed_grows (d d' : Database) :
  grows d d' -> well_timed d -> well_timed d'.
Proof.
  intros G Hwf. destruct G.
  - apply (well_timed_rolled_back d); [reflexivity | reflexivity | exact Hwf].
  - apply well_timed_committed; [repeat constructor | exact Hwf].
  - apply well_timed_committed; [repeat constructor | exact Hwf].
Qed.

(** ** Balances after one call *)

Lemma current_balance_cons_other (d : Database) (ts : list Transaction)
  (bs : list Balance) (b : Balance) (other v : string) :
  b_userId b = Some other -> other <> v ->
  current_balance (committed d ts (b :: bs)) v
  = current_balance (committed d ts bs) v.
Proof.
  intros Hu Hne. unfold current_balance, committed. cbn [store balances app].
  rewrite (latest_of_other v _ b other Hu Hne). reflexivity.
Qed.

Lemma current_balance_committed_nil (d : Database) (ts : list Transaction) (v : string) :
  current_balance (committed d ts []) v = current_balance d v.
Proof. reflexivity. Qed.

(** After the two pairs of a transfer: the sender has [bs1], the recipient
    has [br1], every other account has what it had. *)
Lemma current_balance_committed_two (d : Database) (ts : list Transaction)
  (i j ti tj : Uuid) (uid rid ds dr : string) (bs0 bs1 br0 br1 : Z) (v : string) :
  well_timed d -> rid <> uid ->
  current_balance
    (committed d ts [stored_balance j (clock d) rid tj br0 br1 dr;
                     stored_balance i (clock d) uid ti bs0 bs1 ds]) v
  = if String.eqb v uid then bs1
    else if String.eqb v rid then br1
    else current_balance d v.
Proof.
  intros Hwf Hne.
  destruct (String.eqb_spec v uid) as [->|Hu].
  - erewrite current_balance_cons_other; [| reflexivity | exact Hne].
    apply current_balance_committed_one. exact Hwf.
  - destruct (String.eqb_spec v rid) as [->|Hr].
    + unfold current_balance, committed. cbn [store balances app].
      erewrite latest_of_new; [reflexivity | | reflexivity | reflexivity].
      intros b'. erewrite latest_of_other; [| reflexivity | exact (not_eq_sym Hne)].
      intros E. apply Nat.lt_le_incl. exact (latest_of_older _ _ _ _ Hwf E).
    + erewrite current_balance_cons_other; [| reflexivity | exact (not_eq_sym Hr)].
      erewrite current_balance_cons_other; [| reflexivity | exact (not_eq_sym Hu)].
      reflexivity.
Qed.

Lemma current_balance_committed_pair (d : Database) (ts : list Transaction)
  (i ti : Uuid) (uid ds : string) (b0 b1 : Z) (v : string) :
  well_timed d ->
  current_balance (committed d ts [stored_balance i (clock d) uid ti b0 b1 ds]) v
  = if String.eqb v uid then b1 else current_balance d v.
Proof.
  intros Hwf. destruct (String.eqb_spec v uid) as [->|Hu].
  - apply current_balance_committed_one. exact Hwf.
  - erewrite current_balance_cons_other; [| reflexivity | exact (not_eq_sym Hu)].
    reflexivity.
Qed.

(** ** Chain integrity *)

Lemma own_cons (v : string) (b : Balance) (rows : list Balance) (uid : string) :
  b_userId b = Some uid ->
  own v (b :: rows) = if String.eqb uid v then b :: own v rows else own v rows.
Proof. intros Hu. unfold own. cbn. rewrite Hu. reflexivity. Qed.

Lemma own_incl (v : string) (rows : list Balance) (b : Balance) :
  In b (own v rows) -> In b rows.
Proof. unfold own. intros H. apply filter_In in H. apply H. Qed.

(** With the entries of an account in decreasing time order, the entry that
    the operations read as the latest is the first of them. *)
Lemma latest_of_hd (v : string) (rows : list Balance) :
  descending (map (fun b => created (b_createdAt b)) (own v rows)) ->
  latest_of v rows = hd_error (own v rows).
Proof.
  induction rows as [|b rows IH]; [reflexivity|].
  unfold own. cbn [filter latest_of].
  destruct (opt_str_eqb (b_userId b) v); [|exact IH].
  fold (own v rows). cbn [map descending hd_error]. intros [Hlt Hd].
  rewrite (IH Hd).
  destruct (own v rows) as [|b' l]; [reflexivity|].
  cbn [hd_error map] in *.
  destruct (Nat.ltb_spec (created (b_createdAt b)) (created (b_createdAt b')));
    [lia | reflexivity].
Qed.

Lemma current_balance_hd (d : Database) (v : string) :
  account_chain d v ->
  current_balance d v
  = match own v (balances (store d)) with [] => 0 | b :: _ => after_of b end.
Proof.
  intros [_ Hd]. unfold current_balance. rewrite (latest_of_hd _ _ Hd).
  destruct (own v (balances (store d))); reflexivity.
Qed.

(** One more entry on top keeps the chain of every account, provided it is
    younger than the entries of its account and starts from the latest
    balance of its account. *)
Lemma chain_cons (v : string) (b : Balance) (rows : list Balance) (uid : string)
  (now : nat) :
  b_userId b = Some uid ->
  b_createdAt b = Some now ->
  (forall b', In b' (own uid rows) -> (created (b_createdAt b') < now)%nat) ->
  b_balanceBefore b = Some (balance_of (latest_of uid rows)) ->
  chain (own v rows)
  /\ descending (map (fun b => created (b_createdAt b)) (own v rows)) ->
  chain (own v (b :: rows))
  /\ descending (map (fun b => created (b_createdAt b)) (own v (b :: rows))).
Proof.
  intros Hu Hc Hold Hb [Hch Hd]. rewrite (own_cons v b rows uid Hu).
  destruct (String.eqb_spec uid v) as [->|Hne]; [|split; assumption].
  rewrite (latest_of_hd _ _ Hd) in Hb.
  destruct (own v rows) as [|b' l] eqn:E.
  - split; split; [exact Hb | exact I | exact I | exact I].
  - split; split; [exact Hb | exact Hch | | exact Hd].
    rewrite Hc. apply Hold. left. reflexivity.
Qed.

Lemma well_timed_own (d : Database) (uid : string) (b : Balance) :
  well_timed d -> In b (own uid (balances (store d))) ->
  (created (b_createdAt b) < clock d)%nat.
Proof.
  unfold well_timed. rewrite Forall_forall. intros Hwf Hin.
  apply Hwf. exact (own_incl _ _ _ Hin).
Qed.

Lemma ledger_ok_grows (d d' : Database) :
  grows d d' -> ledger_ok d -> ledger_ok d'.
Proof.
  intros G [Hwf Hch]. split; [exact (well_timed_grows _ _ G Hwf)|].
  intros v. specialize (Hch v). unfold account_chain in *. destruct G.
  - exact Hch.
  - cbn [committed store balances app].
    apply (chain_cons v _ _ userId (clock d)); try reflexivity; [|exact Hch].
    intros b'. apply well_timed_own. exact Hwf.
  - cbn [committed store balances app].
    apply (chain_cons v _ _ (u_id recipient) (clock d)); try reflexivity.
    + intros b'. erewrite own_cons by reflexivity.
      destruct (String.eqb_spec userId (u_id recipient)) as [E|_];
        [congruence|]. apply well_timed_own. exact Hwf.
    + cbn [b_balanceBefore stored_balance]. unfold current_balance.
      erewrite latest_of_other; [reflexivity | reflexivity | congruence].
    + apply (chain_cons v _ _ userId (clock d)); try reflexivity; [|exact Hch].
      intros b'. apply well_timed_own. exact Hwf.
Qed.

Lemma ledger_ok_empty (accounts : list User) (now : nat) (next : Uuid) :
  ledger_ok (empty_ledger accounts now next).
Proof. split; [constructor | intros v; split; exact I]. Qed.

Lemma ledger_ok_perform_all (actions : list Action) :
  forall d, ledger_ok d -> ledger_ok (perform_all d actions).
Proof.
  induction actions as [|a rest IH]; intros d H; [exact H|].
  cbn [perform_all]. apply IH. exact (ledger_ok_grows _ _ (perform_grows d a) H).
Qed.

(** X1.  Chain integrity.  In every database reached from an empty ledger by
    any sequence of deposits, withdrawals and transfers (by any callers, with
    any amounts, storage failures included), the balance entries of every
    account, read from the newest to the oldest, have strictly decreasing
    [createdAt], each entry's [balanceBefore] is the [balanceAfter] of the
    entry before it, and the oldest entry's [balanceBefore] is 0. *)
Theorem chain_integrity (accounts : list User) (now : nat) (next : Uuid)
  (actions : list Action) (userId : string) :
  account_chain (perform_all (empty_ledger accounts now next) actions) userId.
Proof.
  apply (ledger_ok_perform_all actions _ (ledger_ok_empty accounts now next)).
Qed.

(** ** Pairing of the two tables *)

Lemma key_below_fresh (bound : Uuid) (keys : list (option Uuid)) :
  Forall (key_below bound) keys -> forall n, (bound <= n)%nat -> ~ In (Some n) keys.
Proof.
  rewrite Forall_forall. intros H n Hn Hin. specialize (H _ Hin). cbn in H. lia.
Qed.

Lemma key_below_weaken (bound bound' : Uuid) (keys : list (option Uuid)) :
  (bound <= bound')%nat ->
  Forall (key_below bound) keys -> Forall (key_below bound') keys.
Proof.
  intros Hle. apply Forall_impl. intros [n|]; cbn; [lia | auto].
Qed.

Lemma paired_grows (d d' : Database) :
  grows d d' -> paired d -> paired d'.
Proof.
  intros G (Hp & Ht & Hb & Hkt & Hkb). destruct G.
  - repeat split; try assumption;
      cbn [rolled_back next_uuid];
      eapply key_below_weaken; try eassumption; lia.
  - unfold paired. cbn [committed store transactions balances next_uuid app map
                          List.length stored_transaction stored_balance t_id b_id].
    split; [|split; [|split; [|split]]].
    + constructor; [|exact Hp].
      unfold pair_ok. cbn. repeat split; try discriminate.
      exists b0, amount. repeat split.
      destruct H0 as [[-> ->] | (-> & -> & _)]; reflexivity.
    + constructor; [|exact Ht]. apply (key_below_fresh _ _ Hkt). lia.
    + constructor; [|exact Hb]. apply (key_below_fresh _ _ Hkb). lia.
    + constructor; [cbn; lia|]. eapply key_below_weaken; [|exact Hkt]. lia.
    + constructor; [cbn; lia|]. eapply key_below_weaken; [|exact Hkb]. lia.
  - unfold paired. cbn [committed store transactions balances next_uuid app map
                          List.length stored_transaction stored_balance t_id b_id].
    split; [|split; [|split; [|split]]].
    + constructor; [|constructor; [|exact Hp]].
      * unfold pair_ok. cbn. repeat split; try discriminate.
        exists br0, amount. repeat split. right. reflexivity.
      * unfold pair_ok. cbn. repeat split; try discriminate.
        exists bs0, amount. repeat split. left. reflexivity.
    + constructor; [|constructor; [|exact Ht]].
      * intros [E|Hin]; [injection E; lia|].
        revert Hin. apply (key_below_fresh _ _ Hkt). lia.
      * apply (key_below_fresh _ _ Hkt). lia.
    + constructor; [|constructor; [|exact Hb]].
      * intros [E|Hin]; [injection E; lia|].
        revert Hin. apply (key_below_fresh _ _ Hkb). lia.
      * apply (key_below_fresh _ _ Hkb). lia.
    + constructor; [cbn; lia|]. constructor; [cbn; lia|].
      eapply key_below_weaken; [|exact Hkt]. lia.
    + constructor; [cbn; lia|]. constructor; [cbn; lia|].
      eapply key_below_weaken; [|exact Hkb]. lia.
Qed.

Lemma paired_empty (accounts : list User) (now : nat) (next : Uuid) :
  paired (empty_ledger accounts now next).
Proof. repeat split; constructor. Qed.

Lemma paired_perform_all (actions : list Action) :
  forall d, paired d -> paired (perform_all d actions).
Proof.
  induction actions as [|a rest IH]; intros d H; [exact H|].
  cbn [perform_all]. apply IH. exact (paired_grows _ _ (perform_grows d a) H).
Qed.

(** X2.  One balance entry per transaction.  In every database reached from
    an empty ledger the two tables have the same length and go pair by pair:
    the entry carries the id of its transaction, the same account, the same
    [createdAt] and the same [balanceAfter]; the transaction is COMPLETED;
    the entry moves the balance by the amount of the transaction, up for a
    deposit, down for a withdrawal, either way for a transfer leg.  No id
    occurs twice in a table. *)
Theorem one_entry_per_transaction (accounts : list User) (now : nat) (next : Uuid)
  (actions : list Action) :
  let d := perform_all (empty_ledger accounts now next) actions in
  Forall2 pair_ok (transactions (store d)) (balances (store d))
  /\ NoDup (map t_id (transactions (store d)))
  /\ NoDup (map b_id (balances (store d))).
Proof.
  destruct (paired_perform_all actions _ (paired_empty accounts now next))
    as (Hp & Ht & Hb & _).
  repeat split; assumption.
Qed.

(** ** Money is neither made nor lost *)

Lemma total_sum_over (d : Database) (ids : list string) :
  total d ids = sum_over (current_balance d) ids.
Proof. induction ids as [|i rest IH]; cbn; [reflexivity | rewrite IH; reflexivity]. Qed.

Lemma sum_over_ext (f g : string -> Z) (ids : list string) :
  (forall v, In v ids -> g v = f v) -> sum_over g ids = sum_over f ids.
Proof.
  induction ids as [|i rest IH]; intros H; cbn; [reflexivity|].
  rewrite (H i) by (left; reflexivity). rewrite IH; [reflexivity|].
  intros v Hv. apply H. right. exact Hv.
Qed.

Lemma sum_over_shift (f g : string -> Z) (ids : list string) (a : string) (delta : Z) :
  NoDup ids -> In a ids ->
  g a = f a + delta ->
  (forall v, v <> a -> g v = f v) ->
  sum_over g ids = sum_over f ids + delta.
Proof.
  intros Hnd Hin Ha Hother. induction ids as [|i rest IH]; [destruct Hin|].
  inversion Hnd as [|? ? Hni Hnd']; subst. cbn.
  destruct (String.string_dec i a) as [->|Hne].
  - rewrite Ha. rewrite (sum_over_ext f g rest); [lia|].
    intros v Hv. apply Hother. intros ->. contradiction.
  - rewrite (Hother i Hne). rewrite IH; [lia | exact Hnd' |].
    destruct Hin as [E|Hin]; [contradiction | exact Hin].
Qed.

Lemma found_by_id (d : Database) (userId : string) (user : User) :
  find_by_id userId d = Some user ->
  In user (users (store d)) /\ u_id user = userId.
Proof.
  unfold find_by_id. intros H. apply find_some in H. destruct H as [Hin He].
  split; [exact Hin | apply String.eqb_eq; exact He].
Qed.

Lemma found_by_email (d : Database) (email : string) (user : User) :
  find_by_email email d = Some user ->
  In user (users (store d)) /\ u_email user = email.
Proof.
  unfold find_by_email. intros H. apply find_some in H. destruct H as [Hin He].
  split; [exact Hin | apply String.eqb_eq; exact He].
Qed.

(** The sum over all accounts after one call: a deposit that succeeds adds
    its amount, a withdrawal that succeeds takes its amount, and nothing
    else changes the sum; in particular no transfer does. *)
Lemma perform_total (d : Database) (a : Action) (ids : list string) :
  well_timed d -> all_accounts d ids ->
  total (database_of (perform d a)) ids
  = total d ids
    + match a with
      | ADeposit _ _ dto => if succeeded (perform d a) then dep_amount dto else 0
      | _ => 0
      end
    - match a with
      | AWithdraw _ _ dto => if succeeded (perform d a) then wd_amount dto else 0
      | _ => 0
      end.
Proof.
  intros Hwf [Hnd Hall]. rewrite !total_sum_over.
  unfold succeeded, result_of, database_of.
  destruct a as [env uid dto | env uid dto | env uid dto]; cbn [perform].
  - destruct (deposit env d uid dto) as [[[e|t] d'] tr] eqn:E; cbn [fst snd].
    + destruct (dataSource_transaction_rollback _ _ _ _ _ E) as [Hs _].
      rewrite (sum_over_ext (current_balance d) (current_balance d')); [lia|].
      intros v _. apply current_balance_same_store. exact Hs.
    + destruct (deposit_ok_inv _ _ _ _ _ _ _ E) as (u & Hu & _ & _ & _ & -> & _).
      destruct (found_by_id _ _ _ Hu) as [Hin Hid].
      rewrite (sum_over_shift (current_balance d) _ ids uid (dep_amount dto));
        [lia | exact Hnd | rewrite <- Hid; apply Hall; exact Hin | |].
      * rewrite current_balance_committed_pair by exact Hwf.
        rewrite String.eqb_refl. reflexivity.
      * intros v Hv. rewrite current_balance_committed_pair by exact Hwf.
        apply String.eqb_neq in Hv. rewrite Hv. reflexivity.
  - destruct (withdraw env d uid dto) as [[[e|t] d'] tr] eqn:E; cbn [fst snd].
    + destruct (dataSource_transaction_rollback _ _ _ _ _ E) as [Hs _].
      rewrite (sum_over_ext (current_balance d) (current_balance d')); [lia|].
      intros v _. apply current_balance_same_store. exact Hs.
    + destruct (withdraw_ok_inv _ _ _ _ _ _ _ E) as (u & Hu & _ & _ & _ & _ & -> & _).
      destruct (found_by_id _ _ _ Hu) as [Hin Hid].
      rewrite (sum_over_shift (current_balance d) _ ids uid (- wd_amount dto));
        [lia | exact Hnd | rewrite <- Hid; apply Hall; exact Hin | |].
      * rewrite current_balance_committed_pair by exact Hwf.
        rewrite String.eqb_refl. lia.
      * intros v Hv. rewrite current_balance_committed_pair by exact Hwf.
        apply String.eqb_neq in Hv. rewrite Hv. reflexivity.
  - destruct (transfer env d uid dto) as [[[e|t] d'] tr] eqn:E; cbn [fst snd].
    + destruct (dataSource_transaction_rollback _ _ _ _ _ E) as [Hs _].
      rewrite (sum_over_ext (current_balance d) (current_balance d')); [lia|].
      intros v _. apply current_balance_same_store. exact Hs.
    + destruct (transfer_ok_inv _ _ _ _ _ _ _ E)
        as (r & s0 & Hr & Hne & Hs & _ & _ & -> & _).
      destruct (found_by_id _ _ _ Hs) as [Hin Hid].
      destruct (found_by_email _ _ _ Hr) as [Hinr _].
      set (x := tr_amount dto).
      set (f := current_balance d).
      set (h := fun v => if String.eqb v uid then f uid - x else f v).
      rewrite (sum_over_shift h _ ids (u_id r) x);
        [ | exact Hnd | apply Hall; exact Hinr | |].
      * rewrite (sum_over_shift f h ids uid (- x));
          [lia | exact Hnd | rewrite <- Hid; apply Hall; exact Hin | |].
        -- unfold h. rewrite String.eqb_refl. lia.
        -- intros v Hv. unfold h. apply String.eqb_neq in Hv. rewrite Hv. reflexivity.
      * rewrite current_balance_committed_two by assumption.
        unfold h. apply String.eqb_neq in Hne. rewrite Hne, String.eqb_refl.
        reflexivity.
      * intros v Hv. rewrite current_balance_committed_two by assumption.
        unfold h. destruct (String.eqb v uid); [reflexivity|].
        apply String.eqb_neq in Hv. rewrite Hv. reflexivity.
Qed.

Lemma all_accounts_grows (d d' : Database) (ids : list string) :
  grows d d' -> all_accounts d ids -> all_accounts d' ids.
Proof.
  intros G [Hnd Hall]. split; [exact Hnd|].
  rewrite (grows_users _ _ G). exact Hall.
Qed.

Lemma perform_all_total (actions : list Action) (ids : list string) :
  forall d, well_timed d -> all_accounts d ids ->
    total (perform_all d actions) ids
    = total d ids + paid_in d actions - paid_out d actions.
Proof.
  induction actions as [|a rest IH]; intros d Hwf Hall; cbn; [lia|].
  pose proof (perform_grows d a) as G.
  rewrite IH;
    [ | exact (well_timed_grows _ _ G Hwf) | exact (all_accounts_grows _ _ _ G Hall)].
  rewrite (perform_total d a ids Hwf Hall).
  destruct a; lia.
Qed.

Lemma total_empty_ledger (accounts : list User) (now : nat) (next : Uuid)
  (ids : list string) :
  total (empty_ledger accounts now next) ids = 0.
Proof. induction ids as [|i rest IH]; cbn; [reflexivity | rewrite IH; reflexivity]. Qed.

(** X3.  The books balance.  Starting from an empty ledger, after any
    sequence of deposits, withdrawals and transfers by any callers, the sum
    of the balances of all accounts is the sum of the amounts of the deposits
    that succeeded minus the sum of the amounts of the withdrawals that
    succeeded: transfers, failed calls and storage failures neither make nor
    lose money. *)
Theorem books_balance (accounts : list User) (now : nat) (next : Uuid)
  (actions : list Action) (ids : list string) :
  all_accounts (empty_ledger accounts now next) ids ->
  let d0 := empty_ledger accounts now next in
  total (perform_all d0 actions) ids = paid_in d0 actions - paid_out d0 actions.
Proof.
  intros Hall d0.
  rewrite (perform_all_total actions ids d0 (well_timed_empty_ledger _ _ _) Hall).
  unfold d0. rewrite total_empty_ledger. lia.
Qed.

(** ** No account is overdrawn *)

Lemma perform_keeps_nonneg (d : Database) (a : Action) :
  well_timed d -> 0 <= amount_of a -> no_overdraft d ->
  no_overdraft (database_of (perform d a)).
Proof.
  intros Hwf Hamt Hpos v. unfold database_of.
  destruct a as [env uid dto | env uid dto | env uid dto]; cbn [perform amount_of] in *.
  - destruct (deposit env d uid dto) as [[[e|t] d'] tr] eqn:E; cbn [fst snd].
    + destruct (dataSource_transaction_rollback _ _ _ _ _ E) as [Hs _].
      rewrite (current_balance_same_store _ _ _ Hs). apply Hpos.
    + destruct (deposit_ok_inv _ _ _ _ _ _ _ E) as (u & _ & _ & _ & _ & -> & _).
      rewrite current_balance_committed_pair by exact Hwf.
      pose proof (Hpos uid). destruct (String.eqb v uid); [lia | apply Hpos].
  - destruct (withdraw env d uid dto) as [[[e|t] d'] tr] eqn:E; cbn [fst snd].
    + destruct (dataSource_transaction_rollback _ _ _ _ _ E) as [Hs _].
      rewrite (current_balance_same_store _ _ _ Hs). apply Hpos.
    + destruct (withdraw_ok_inv _ _ _ _ _ _ _ E) as (u & _ & _ & _ & Hle & _ & -> & _).
      rewrite current_balance_committed_pair by exact Hwf.
      destruct (String.eqb v uid); [lia | apply Hpos].
  - destruct (transfer env d uid dto) as [[[e|t] d'] tr] eqn:E; cbn [fst snd].
    + destruct (dataSource_transaction_rollback _ _ _ _ _ E) as [Hs _].
      rewrite (current_balance_same_store _ _ _ Hs). apply Hpos.
    + destruct (transfer_ok_inv _ _ _ _ _ _ _ E)
        as (r & s0 & _ & Hne & _ & Hle & _ & -> & _).
      rewrite current_balance_committed_two by assumption.
      pose proof (Hpos (u_id r)).
      destruct (String.eqb v uid); [lia|].
      destruct (String.eqb v (u_id r)); [lia | apply Hpos].
Qed.

(** A request either is turned away by the validation, leaving the database
    as it is, or is a call of the service with an amount of at least one
    cent. *)
Lemma serve_cases (d : Database) (c : Env * HttpRequest) :
  serve d c = (result_of (serve d c), d, [])
  \/ exists a, 1 <= amount_of a /\ serve d c = perform d a.
Proof.
  destruct c as [env [user body | user body | user body]];
    unfold serve, controller_deposit, controller_withdraw, controller_transfer,
      ValidationPipe; cbn [fst snd].
  - destruct (validate_amount "deposit" (depb_amount body)) eqn:V;
      [|left; reflexivity].
    right. eexists (ADeposit env (u_id user) _). split; [|reflexivity].
    exact (validate_amount_ok _ _ V).
  - destruct (validate_amount "withdrawal" (wdb_amount body)) eqn:V;
      [|left; reflexivity].
    right. eexists (AWithdraw env (u_id user) _). split; [|reflexivity].
    exact (validate_amount_ok _ _ V).
  - destruct (validate_amount "transfer" (trb_amount body)) eqn:V;
      [|left; reflexivity].
    right. eexists (ATransfer env (u_id user) _). split; [|reflexivity].
    exact (validate_amount_ok _ _ V).
Qed.

Lemma serve_all_keeps_nonneg (requests : list (Env * HttpRequest)) :
  forall d, well_timed d -> no_overdraft d ->
    well_timed (serve_all d requests) /\ no_overdraft (serve_all d requests).
Proof.
  induction requests as [|c rest IH]; intros d Hwf Hpos; [split; assumption|].
  cbn [serve_all].
  destruct (serve_cases d c) as [E | (a & Ha & E)]; rewrite E.
  - unfold database_of. cbn [fst snd]. apply IH; assumption.
  - apply IH.
    + exact (well_timed_grows _ _ (perform_grows d a) Hwf).
    + apply perform_keeps_nonneg; [exact Hwf | lia | exact Hpos].
Qed.

(** X4.  No overdraft.  After any sequence of deposit, withdraw and transfer
    requests of any users on an empty ledger, each request in any
    environment, the balance of every account is non-negative. *)
Theorem never_overdrawn (accounts : list User) (now : nat) (next : Uuid)
  (requests : list (Env * HttpRequest)) (v : string) :
  0 <= current_balance (serve_all (empty_ledger accounts now next) requests) v.
Proof.
  apply (serve_all_keeps_nonneg requests (empty_ledger accounts now next)).
  - apply well_timed_empty_ledger.
  - intros u. cbn. lia.
Qed.

(** ** Who is affected by a call *)

(** X5.  A call changes no balance but those of its parties: the caller for
    a deposit or a withdrawal; the sender and the account the recipient
    address resolves to for a transfer.  This holds whatever the call
    returns. *)
Theorem other_accounts_untouched (d : Database) (a : Action) (v : string) :
  ~ In v (parties d a) ->
  current_balance (database_of (perform d a)) v = current_balance d v.
Proof.
  intros Hv. unfold database_of.
  destruct a as [env uid dto | env uid dto | env uid dto]; cbn [perform parties] in *.
  - destruct (deposit env d uid dto) as [[[e|t] d'] tr] eqn:E; cbn [fst snd].
    + destruct (dataSource_transaction_rollback _ _ _ _ _ E) as [Hs _].
      exact (current_balance_same_store _ _ _ Hs).
    + destruct (deposit_ok_inv _ _ _ _ _ _ _ E) as (u & _ & _ & _ & _ & -> & _).
      erewrite current_balance_cons_other; [reflexivity | reflexivity |].
      intros ->. apply Hv. left. reflexivity.
  - destruct (withdraw env d uid dto) as [[[e|t] d'] tr] eqn:E; cbn [fst snd].
    + destruct (dataSource_transaction_rollback _ _ _ _ _ E) as [Hs _].
      exact (current_balance_same_store _ _ _ Hs).
    + destruct (withdraw_ok_inv _ _ _ _ _ _ _ E) as (u & _ & _ & _ & _ & _ & -> & _).
      erewrite current_balance_cons_other; [reflexivity | reflexivity |].
      intros ->. apply Hv. left. reflexivity.
  - destruct (transfer env d uid dto) as [[[e|t] d'] tr] eqn:E; cbn [fst snd].
    + destruct (dataSource_transaction_rollback _ _ _ _ _ E) as [Hs _].
      exact (current_balance_same_store _ _ _ Hs).
    + destruct (transfer_ok_inv _ _ _ _ _ _ _ E)
        as (r & s0 & Hr & _ & _ & _ & _ & -> & _).
      rewrite Hr in Hv.
      erewrite current_balance_cons_other; [| reflexivity |].
      * erewrite current_balance_cons_other; [reflexivity | reflexivity |].
        intros ->. apply Hv. left. reflexivity.
      * intros <-. apply Hv. right. left. reflexivity.
Qed.

(** ** When a call succeeds *)



(** ** Deposits and withdrawals are all or nothing *)

(** X7.  A deposit or a withdrawal either returns its transaction, with
    exactly that transaction and one balance entry of it added to the tables,
    or fails with the tables as they were, wherever the failure happens: a
    transaction row never stays without its balance entry. *)
Theorem deposit_withdraw_atomic (env : Env) (d : Database) (userId : string) :
  (forall dto,
     let '(r, d', _) := deposit env d userId dto in
     (exists t b,
        r = inr t /\
        transactions (store d') = t :: transactions (store d) /\
        balances (store d') = b :: balances (store d) /\
        b_transactionId b = t_id t /\ t_id t <> None)
     \/ (exists e, r = inl e /\ store d' = store d))
  /\
  (forall dto,
     let '(r, d', _) := withdraw env d userId dto in
     (exists t b,
        r = inr t /\
        transactions (store d') = t :: transactions (store d) /\
        balances (store d') = b :: balances (store d) /\
        b_transactionId b = t_id t /\ t_id t <> None)
     \/ (exists e, r = inl e /\ store d' = store d)).
Proof.
  split; intros dto.
  - destruct (deposit env d userId dto) as [[[e|t] d'] tr] eqn:E.
    + right. exists e. split; [reflexivity|].
      apply (dataSource_transaction_rollback _ _ _ _ _ E).
    + left. destruct (deposit_ok_inv _ _ _ _ _ _ _ E) as (u & _ & _ & _ & -> & -> & _).
      do 2 eexists. cbn. repeat split. discriminate.
  - destruct (withdraw env d userId dto) as [[[e|t] d'] tr] eqn:E.
    + right. exists e. split; [reflexivity|].
      apply (dataSource_transaction_rollback _ _ _ _ _ E).
    + left.
      destruct (withdraw_ok_inv _ _ _ _ _ _ _ E) as (u & _ & _ & _ & _ & -> & -> & _).
      do 2 eexists. cbn. repeat split. discriminate.
Qed.

(** ** Locks, audit records and notifications of a call *)

Ltac mail_cases env :=
  unfold email_events; destruct (email_configured env), (smtp_ok env); cbn.

(** X8.  A deposit or a withdrawal locks exactly the caller's row when the
    account exists and no row otherwise; a call never locks a row of an
    account that is not one of its parties; and whatever a call returns, no
    lock is held once it has returned. *)
Theorem locks_of_a_call (d : Database) (a : Action) :
  let tr := trace_of (perform d a) in
  (match a with
   | ATransfer _ _ _ => True
   | _ => locks_acquired tr
          = match find_by_id (caller a) d with Some _ => [caller a] | None => [] end
   end)
  /\ incl (locks_acquired tr) (parties d a)
  /\ held_after [] tr = [].
Proof.
  unfold trace_of.
  destruct a as [env uid dto | env uid dto | env uid dto]; cbn [perform caller parties].
  - destruct (find_by_id uid d) as [user|] eqn:Hu.
    + rewrite (deposit_run env _ _ dto _ Hu). cbv zeta.
      destruct (refused env 0); [|destruct (refused env 1)]; cbn;
        try mail_cases env; repeat split; auto using incl_refl.
    + rewrite (deposit_unknown_user env _ _ dto Hu). cbn.
      repeat split. apply incl_nil_l.
  - destruct (find_by_id uid d) as [user|] eqn:Hu.
    + rewrite (withdraw_run env _ _ dto _ Hu). cbv zeta.
      destruct (_ <? _);
        [|destruct (refused env 0); [|destruct (refused env 1)]]; cbn;
        try mail_cases env; repeat split; auto using incl_refl.
    + rewrite (withdraw_unknown_user env _ _ dto Hu). cbn.
      repeat split. apply incl_nil_l.
  - destruct (find_by_email (tr_recipientEmail dto) d) as [recipient|] eqn:Hr.
    2:{ rewrite (transfer_unknown_recipient env _ uid _ Hr). cbn.
        repeat split. apply incl_nil_l. }
    destruct (String.string_dec (u_id recipient) uid) as [Hid|Hid].
    { rewrite (transfer_to_self env _ _ _ _ Hr Hid). cbn.
      repeat split. apply incl_nil_l. }
    destruct (find_by_id uid d) as [sender|] eqn:Hu.
    2:{ rewrite (transfer_unknown_sender env _ _ _ _ Hr Hid Hu). cbn.
        repeat split. apply incl_nil_l. }
    rewrite (transfer_run env _ _ _ _ _ Hr Hid Hu). cbv zeta.
    destruct (_ <? _);
      [|destruct (refused env 0);
        [|destruct (refused env 1);
          [|destruct (refused env 2); [|destruct (refused env 3)]]]]; cbn;
      try mail_cases env; repeat split; auto using incl_refl.
Qed.

(** X9.  The audit log is told about the caller only.  A call that succeeds
    makes two audit records, both about the caller; so the balance change of
    the recipient of a transfer is never audited. *)
Theorem audit_is_about_the_caller (d : Database) (a : Action) :
  let tr := trace_of (perform d a) in
  (forall v, In v (audit_subjects tr) -> v = caller a)
  /\ (succeeded (perform d a) = true -> audit_subjects tr = [caller a; caller a]).
Proof.
  unfold trace_of, succeeded, result_of.
  destruct a as [env uid dto | env uid dto | env uid dto]; cbn [perform caller].
  - destruct (find_by_id uid d) as [user|] eqn:Hu.
    + rewrite (deposit_run env _ _ dto _ Hu). cbv zeta.
      destruct (refused env 0); [|destruct (refused env 1)]; cbn;
        try mail_cases env; (split; [intuition congruence | auto; discriminate]).
    + rewrite (deposit_unknown_user env _ _ dto Hu). cbn.
      split; [intuition | discriminate].
  - destruct (find_by_id uid d) as [user|] eqn:Hu.
    + rewrite (withdraw_run env _ _ dto _ Hu). cbv zeta.
      destruct (_ <? _);
        [|destruct (refused env 0); [|destruct (refused env 1)]]; cbn;
        try mail_cases env; (split; [intuition congruence | auto; discriminate]).
    + rewrite (withdraw_unknown_user env _ _ dto Hu). cbn.
      split; [intuition | discriminate].
  - destruct (find_by_email (tr_recipientEmail dto) d) as [recipient|] eqn:Hr.
    2:{ rewrite (transfer_unknown_recipient env _ uid _ Hr). cbn.
        split; [intuition | discriminate]. }
    destruct (String.string_dec (u_id recipient) uid) as [Hid|Hid].
    { rewrite (transfer_to_self env _ _ _ _ Hr Hid). cbn.
      split; [intuition | discriminate]. }
    destruct (find_by_id uid d) as [sender|] eqn:Hu.
    2:{ rewrite (transfer_unknown_sender env _ _ _ _ Hr Hid Hu). cbn.
        split; [intuition | discriminate]. }
    rewrite (transfer_run env _ _ _ _ _ Hr Hid Hu). cbv zeta.
    destruct (_ <? _);
      [|destruct (refused env 0);
        [|destruct (refused env 1);
          [|destruct (refused env 2); [|destruct (refused env 3)]]]]; cbn;
      try mail_cases env; (split; [intuition congruence | auto; discriminate]).
Qed.





(** ** The amounts that the validation lets through *)




(** ** The history query *)

Lemma insert_desc_perm (t : Transaction) (l : list Transaction) :
  Permutation (insert_desc t l) (t :: l).
Proof.
  induction l as [|t' l IH]; cbn; [reflexivity|].
  destruct (Nat.leb _ _); [reflexivity|].
  rewrite IH. apply perm_swap.
Qed.

Lemma orderBy_perm (l : list Transaction) :
  Permutation (orderBy_createdAt_DESC l) l.
Proof.
  induction l as [|t l IH]; cbn; [reflexivity|].
  rewrite insert_desc_perm. constructor. exact IH.
Qed.









Lemma firstn_add {A} (a b : nat) :
  forall l : list A, firstn (a + b) l = firstn a l ++ firstn b (skipn a l).
Proof.
  induction a as [|a IH]; intros l; [reflexivity|].
  destruct l as [|x l]; cbn; [rewrite firstn_nil; reflexivity|].
  rewrite IH. reflexivity.
Qed.

(** X13.  Reading the history page by page.  With a limit of at least 1,
    no page has more rows than the limit; pages 1 to [n] put one after the
    other are the first [n * limit] matching rows, newest first; and once
    [n * limit] reaches the total they hold every matching transaction
    exactly once. *)
Theorem pages_cover_history (d : Database) (userId : string) (limit : Z)
  (type : option TransactionType) (n : nat) :
  1 <= limit ->
  let matching := filter (where_clause userId type) (transactions (store d)) in
  (forall page,
     (List.length (rows_of (getTransactions d userId page limit type))
      <= Z.to_nat limit)%nat)
  /\ first_pages d userId limit type n
     = firstn (n * Z.to_nat limit) (orderBy_createdAt_DESC matching)
  /\ ((List.length matching <= n * Z.to_nat limit)%nat ->
      Permutation (first_pages d userId limit type n) matching).
Proof.
  intros Hl matching.
  assert (Hpages : first_pages d userId limit type n
                   = firstn (n * Z.to_nat limit) (orderBy_createdAt_DESC matching)).
  { unfold first_pages. induction n as [|n IH]; [reflexivity|].
    rewrite seq_S, flat_map_app, IH. cbn [flat_map]. rewrite app_nil_r.
    unfold getTransactions. cbn [rows_of p_transactions]. fold matching.
    unfold skip_take.
    replace (Z.to_nat ((Z.of_nat (1 + n) - 1) * limit)) with (n * Z.to_nat limit)%nat
      by (rewrite Z2Nat.inj_mul by lia; f_equal; lia).
    rewrite <- firstn_add. f_equal. lia. }
  split; [|split; [exact Hpages|]].
  - intros page. unfold getTransactions, skip_take. cbn [rows_of p_transactions].
    apply firstn_le_length.
  - intros Hall. rewrite Hpages.
    rewrite firstn_all2 by (rewrite (Permutation_length (orderBy_perm _)); exact Hall).
    apply orderBy_perm.
Qed.

Lemma pages_cover_history_witness :
  first_pages bank_AB "A" 1 None 1
  = firstn 1 (orderBy_createdAt_DESC
                (filter (where_clause "A" None) (transactions (store bank_AB)))).
Proof.
  destruct (pages_cover_history bank_AB "A" 1 None 1 ltac:(lia)) as (_ & H & _).
  exact H.
Defined.

(** ** The newest transaction comes first *)

Lemma history_timed_grows (d d' : Database) :
  grows d d' -> history_timed d -> history_timed d'.
Proof.
  unfold history_timed. intros G H. destruct G; cbn [committed rolled_back store
    transactions clock app].
  - revert H. apply Forall_impl. intros t. lia.
  - constructor; [cbn; lia|]. revert H. apply Forall_impl. intros t. lia.
  - constructor; [cbn; lia|]. constructor; [cbn; lia|].
    revert H. apply Forall_impl. intros t. lia.
Qed.

Lemma history_timed_perform_all (actions : list Action) :
  forall d, history_timed d -> history_timed (perform_all d actions).
Proof.
  induction actions as [|a rest IH]; intros d H; [exact H|].
  cbn [perform_all]. apply IH. exact (history_timed_grows _ _ (perform_grows d a) H).
Qed.






(** ** Reading the balance after a call *)

Lemma getBalance_same_users (d d' : Database) (userId : string) :
  users (store d') = users (store d) ->
  getBalance d' userId
  = match find_by_id userId d with
    | None => inl (NotFoundException "User not found")
    | Some _ => inr (current_balance d' userId)
    end.
Proof. unfold getBalance, find_by_id, current_balance. intros ->. reflexivity. Qed.

(** X15.  [getBalance] of the caller after a call: "User not found" when the
    caller has no account; otherwise the balance before the call plus the
    amount of a deposit that succeeded, minus the amount of a withdrawal or a
    transfer that succeeded, and the balance before the call when the call
    failed. *)
Theorem getBalance_after_a_call (d : Database) (a : Action) :
  well_timed d ->
  let r := perform d a in
  getBalance (database_of r) (caller a)
  = match find_by_id (caller a) d with
    | None => inl (NotFoundException "User not found")
    | Some _ =>
        inr (current_balance d (caller a)
             + (if succeeded r then signed_amount a else 0))
    end.
Proof.
  intros Hwf r.
  rewrite (getBalance_same_users d) by (apply grows_users, perform_grows).
  destruct (find_by_id (caller a) d) as [user|]; [|reflexivity].
  f_equal. subst r. unfold succeeded, result_of, database_of.
  destruct a as [env uid dto | env uid dto | env uid dto];
    cbn [perform caller signed_amount].
  - destruct (deposit env d uid dto) as [[[e|t] d'] tr] eqn:E; cbn [fst snd].
    + destruct (dataSource_transaction_rollback _ _ _ _ _ E) as [Hs _].
      rewrite (current_balance_same_store _ _ _ Hs). lia.
    + destruct (deposit_ok_inv _ _ _ _ _ _ _ E) as (u & _ & _ & _ & _ & -> & _).
      apply current_balance_committed_one. exact Hwf.
  - destruct (withdraw env d uid dto) as [[[e|t] d'] tr] eqn:E; cbn [fst snd].
    + destruct (dataSource_transaction_rollback _ _ _ _ _ E) as [Hs _].
      rewrite (current_balance_same_store _ _ _ Hs). lia.
    + destruct (withdraw_ok_inv _ _ _ _ _ _ _ E) as (u & _ & _ & _ & _ & _ & -> & _).
      apply current_balance_committed_one. exact Hwf.
  - destruct (transfer env d uid dto) as [[[e|t] d'] tr] eqn:E; cbn [fst snd].
    + destruct (dataSource_transaction_rollback _ _ _ _ _ E) as [Hs _].
      rewrite (current_balance_same_store _ _ _ Hs). lia.
    + destruct (transfer_ok_inv _ _ _ _ _ _ _ E)
        as (rc & s0 & _ & Hne & _ & _ & _ & -> & _).
      rewrite current_balance_committed_two by assumption.
      rewrite String.eqb_refl. reflexivity.
Qed.

Lemma getBalance_after_a_call_witness :
  getBalance (database_of (perform bank100 (ADeposit healthy "A" fifty))) "A"
  = inr (10000 + 5000).
Proof.
  assert (Hwf : well_timed bank100).
  { unfold well_timed. vm_compute. repeat constructor. }
  pose proof (getBalance_after_a_call bank100 (ADeposit healthy "A" fifty) Hwf) as H.
  vm_compute in H. vm_compute. exact H.
Defined.

(** ** Putting money in and taking it out again *)

(** X16.  A withdrawal of the amount just deposited, on an account that was
    not in debit and with a storage that accepts the inserts, succeeds and
    brings the balance back to what it was before the deposit. *)
Theorem deposit_then_withdraw (env env' : Env) (d d1 : Database) (userId : string)
  (x : Z) (description description' : option string) (t : Transaction)
  (tr : list Event) :
  well_timed d ->
  0 <= current_balance d userId ->
  storage_fault env' = None ->
  deposit env d userId {| dep_amount := x; dep_description := description |}
  = (inr t, d1, tr) ->
  exists t' d2 tr',
    withdraw env' d1 userId {| wd_amount := x; wd_description := description' |}
    = (inr t', d2, tr')
    /\ current_balance d1 userId = current_balance d userId + x
    /\ current_balance d2 userId = current_balance d userId.
Proof.
  intros Hwf Hpos Hs E.
  pose proof (well_timed_deposit env d userId
                {| dep_amount := x; dep_description := description |} Hwf) as Hwf1.
  rewrite E in Hwf1. cbn [fst snd] in Hwf1.
  destruct (deposit_ok_inv _ _ _ _ _ _ _ E) as (u & Hu & _ & _ & _ & Hd & _).
  cbn [dep_amount dep_description] in Hd.
  assert (Hb1 : current_balance d1 userId = current_balance d userId + x).
  { rewrite Hd. apply current_balance_committed_one. exact Hwf. }
  assert (Hu1 : find_by_id userId d1 = Some u).
  { rewrite Hd. exact Hu. }
  pose proof (withdraw_run env' d1 userId
                {| wd_amount := x; wd_description := description' |} u Hu1) as W.
  cbv zeta in W. cbn [wd_amount wd_description] in W.
  rewrite !(refused_none env') in W by exact Hs.
  destruct (Z.ltb_spec (current_balance d1 userId) x) as [Hlt|_]; [lia|].
  do 3 eexists. split; [exact W|]. split; [exact Hb1|].
  rewrite current_balance_committed_one by exact Hwf1. lia.
Qed.

Lemma deposit_then_withdraw_witness :
  exists t' d2 tr',
    withdraw healthy (database_of scenario2) "A"
      {| wd_amount := 5000; wd_description := None |} = (inr t', d2, tr')
    /\ current_balance (database_of scenario2) "A" = current_balance bank100 "A" + 5000
    /\ current_balance d2 "A" = current_balance bank100 "A".
Proof.
  assert (Hwf : well_timed bank100).
  { unfold well_timed. vm_compute. repeat constructor. }
  assert (E : deposit healthy bank100 "A" {| dep_amount := 5000; dep_description := None |}
              = (result_of scenario2, database_of scenario2, trace_of scenario2))
    by (vm_compute; reflexivity).
  assert (Hpos : 0 <= current_balance bank100 "A") by (vm_compute; discriminate).
  exact (deposit_then_withdraw healthy healthy bank100 _ "A" 5000 None None
           _ _ Hwf Hpos eq_refl E).
Defined.

(** * The earlier version of the service *)

Ltac run_legacy :=
  unfold Legacy.bind, Legacy.ret, Legacy.throw, Legacy.emit,
    Legacy.manager_findOne_User_by_id, Legacy.manager_findOne_User_by_email,
    Legacy.manager_save_User, Legacy.manager_save_Transaction,
    Legacy.auditService_logBalanceChange, Legacy.auditService_logTransaction,
    Legacy.auditService_log, Legacy.emailService_sendTransactionConfirmationEmail,
    Legacy.count_save; cbn.

Lemma legacy_deposit_unknown_user (env : Env) (d : Legacy.Database) (userId : string)
  (dto : DepositDto) :
  legacy_find_by_id userId d = None ->
  fst (Legacy.deposit env d userId dto)
  = (inl (NotFoundException "User not found"),
     {| Legacy.store := Legacy.store d; Legacy.clock := S (Legacy.clock d);
        Legacy.next_uuid := Legacy.next_uuid d |}).
Proof.
  unfold legacy_find_by_id, Legacy.deposit, Legacy.dataSource_transaction,
    Legacy.deposit_callback.
  intros H. run_legacy. rewrite H. reflexivity.
Qed.

Lemma legacy_deposit_run (env : Env) (d : Legacy.Database) (userId : string)
  (dto : DepositDto) (user : Legacy.User) :
  storage_fault env = None ->
  legacy_find_by_id userId d = Some user ->
  let b1 := Legacy.u_balance user + dep_amount dto in
  let t := stored_transaction (Legacy.next_uuid d) (Legacy.clock d) userId DEPOSIT
             (dep_amount dto) (or_else (dep_description dto) "Deposit") None b1 in
  fst (Legacy.deposit env d userId dto)
  = (inr t,
     {| Legacy.store :=
          {| Legacy.users :=
               legacy_saved (Legacy.set_balance user b1)
                 (Legacy.users (Legacy.store d));
             Legacy.transactions := t :: Legacy.transactions (Legacy.store d) |};
        Legacy.clock := S (Legacy.clock d);
        Legacy.next_uuid := S (Legacy.next_uuid d) |}).
Proof.
  unfold legacy_find_by_id, Legacy.deposit, Legacy.dataSource_transaction,
    Legacy.deposit_callback, refused.
  intros Hs H. run_legacy. rewrite H. cbn. unfold refused. rewrite Hs. cbn.
  destruct (email_configured env), (smtp_ok env); reflexivity.
Qed.

Lemma legacy_withdraw_unknown_user (env : Env) (d : Legacy.Database) (userId : string)
  (dto : WithdrawDto) :
  legacy_find_by_id userId d = None ->
  fst (Legacy.withdraw env d userId dto)
  = (inl (NotFoundException "User not found"),
     {| Legacy.store := Legacy.store d; Legacy.clock := S (Legacy.clock d);
        Legacy.next_uuid := Legacy.next_uuid d |}).
Proof.
  unfold legacy_find_by_id, Legacy.withdraw, Legacy.dataSource_transaction,
    Legacy.withdraw_callback.
  intros H. run_legacy. rewrite H. reflexivity.
Qed.

Lemma legacy_withdraw_run (env : Env) (d : Legacy.Database) (userId : string)
  (dto : WithdrawDto) (user : Legacy.User) :
  storage_fault env = None ->
  legacy_find_by_id userId d = Some user ->
  let b1 := Legacy.u_balance user - wd_amount dto in
  let t := stored_transaction (Legacy.next_uuid d) (Legacy.clock d) userId WITHDRAWAL
             (wd_amount dto) (or_else (wd_description dto) "Withdrawal") None b1 in
  fst (Legacy.withdraw env d userId dto)
  = if Legacy.u_balance user <? wd_amount dto then
      (inl (BadRequestException "Insufficient funds"),
       {| Legacy.store := Legacy.store d; Legacy.clock := S (Legacy.clock d);
          Legacy.next_uuid := Legacy.next_uuid d |})
    else
      (inr t,
       {| Legacy.store :=
            {| Legacy.users :=
                 legacy_saved (Legacy.set_balance user b1)
                   (Legacy.users (Legacy.store d));
               Legacy.transactions := t :: Legacy.transactions (Legacy.store d) |};
          Legacy.clock := S (Legacy.clock d);
          Legacy.next_uuid := S (Legacy.next_uuid d) |}).
Proof.
  unfold legacy_find_by_id, Legacy.withdraw, Legacy.dataSource_transaction,
    Legacy.withdraw_callback, refused.
  intros Hs H. run_legacy. rewrite H. cbn.
  destruct (_ <? _); cbn; [reflexivity|].
  unfold refused. rewrite Hs. cbn.
  destruct (email_configured env), (smtp_ok env); reflexivity.
Qed.

Lemma legacy_find_by_id_of_found (d : Legacy.Database) (email : string)
  (r : Legacy.User) :
  legacy_find_by_email email d = Some r ->
  exists r', legacy_find_by_id (Legacy.u_id r) d = Some r'.
Proof.
  unfold legacy_find_by_email, legacy_find_by_id. intros H.
  apply find_some in H. destruct H as [Hin _].
  destruct (find (fun u => String.eqb (Legacy.u_id u) (Legacy.u_id r))
              (Legacy.users (Legacy.store d))) eqn:E.
  - eauto.
  - apply (find_none _ _ E) in Hin. rewrite String.eqb_refl in Hin. discriminate.
Qed.

Lemma legacy_transfer_rejected (env : Env) (d : Legacy.Database) (userId : string)
  (dto : TransferDto) :
  let rolled :=
    {| Legacy.store := Legacy.store d; Legacy.clock := S (Legacy.clock d);
       Legacy.next_uuid := Legacy.next_uuid d |} in
  (legacy_find_by_email (tr_recipientEmail dto) d = None ->
   fst (Legacy.transfer env d userId dto)
   = (inl (NotFoundException "Recipient not found"), rolled))
  /\
  (forall recipient,
     legacy_find_by_email (tr_recipientEmail dto) d = Some recipient ->
     (Legacy.u_id recipient = userId ->
      fst (Legacy.transfer env d userId dto)
      = (inl (BadRequestException "Cannot transfer to yourself"), rolled))
     /\
     (Legacy.u_id recipient <> userId ->
      legacy_find_by_id userId d = None ->
      fst (Legacy.transfer env d userId dto)
      = (inl (NotFoundException "Sender not found"), rolled))).
Proof.
  unfold legacy_find_by_email, legacy_find_by_id, Legacy.transfer,
    Legacy.dataSource_transaction, Legacy.transfer_callback.
  cbv zeta. split; [|intros recipient H; split].
  - intros H. run_legacy. rewrite H. reflexivity.
  - intros Hid. run_legacy. rewrite H. cbn. rewrite Hid, String.eqb_refl.
    reflexivity.
  - intros Hid Hs. run_legacy. rewrite H. cbn.
    apply String.eqb_neq in Hid. rewrite Hid. cbn. rewrite Hs. reflexivity.
Qed.

Lemma legacy_transfer_run (env : Env) (d : Legacy.Database) (userId : string)
  (dto : TransferDto) (recipient sender locked : Legacy.User) :
  storage_fault env = None ->
  legacy_find_by_email (tr_recipientEmail dto) d = Some recipient ->
  Legacy.u_id recipient <> userId ->
  legacy_find_by_id userId d = Some sender ->
  legacy_find_by_id (Legacy.u_id recipient) d = Some locked ->
  let rid := Legacy.u_id recipient in
  let amount := tr_amount dto in
  let bs1 := Legacy.u_balance sender - amount in
  let br1 := Legacy.u_balance locked + amount in
  let n := Legacy.next_uuid d in
  let tS := stored_transaction n (Legacy.clock d) userId TRANSFER amount
              (or_else (tr_description dto)
                 (String.append "Transfer to " (tr_recipientEmail dto)))
              (Some rid) bs1 in
  let tR := stored_transaction (S n) (Legacy.clock d) rid TRANSFER amount
              (or_else (tr_description dto)
                 (String.append "Transfer from " (Legacy.u_email sender)))
              (Some userId) br1 in
  fst (Legacy.transfer env d userId dto)
  = if Legacy.u_balance sender <? amount then
      (inl (BadRequestException "Insufficient funds"),
       {| Legacy.store := Legacy.store d; Legacy.clock := S (Legacy.clock d);
          Legacy.next_uuid := Legacy.next_uuid d |})
    else
      (inr tS,
       {| Legacy.store :=
            {| Legacy.users :=
                 legacy_saved (Legacy.set_balance locked br1)
                   (legacy_saved (Legacy.set_balance sender bs1)
                      (Legacy.users (Legacy.store d)));
               Legacy.transactions := tR :: tS :: Legacy.transactions (Legacy.store d) |};
          Legacy.clock := S (Legacy.clock d);
          Legacy.next_uuid := S (S n) |}).
Proof.
  unfold legacy_find_by_email, legacy_find_by_id, Legacy.transfer,
    Legacy.dataSource_transaction, Legacy.transfer_callback.
  intros Hs Hr Hid Hu Hl. run_legacy. rewrite Hr. cbn.
  apply String.eqb_neq in Hid. rewrite Hid. cbn. rewrite Hu. cbn. rewrite Hl. cbn.
  destruct (_ <? _); cbn; [reflexivity|].
  unfold refused. rewrite Hs. cbn.
  destruct (email_configured env), (smtp_ok env); reflexivity.
Qed.

(** ** The two versions agree *)

Lemma find_forget_id (us : list Legacy.User) (x : string) :
  find (fun u => String.eqb (u_id u) x) (map forget us)
  = option_map forget (find (fun u => String.eqb (Legacy.u_id u) x) us).
Proof.
  induction us as [|u us IH]; [reflexivity|]. cbn.
  destruct (String.eqb (Legacy.u_id u) x); [reflexivity | exact IH].
Qed.

Lemma find_forget_email (us : list Legacy.User) (x : string) :
  find (fun u => String.eqb (u_email u) x) (map forget us)
  = option_map forget (find (fun u => String.eqb (Legacy.u_email u) x) us).
Proof.
  induction us as [|u us IH]; [reflexivity|]. cbn.
  destruct (String.eqb (Legacy.u_email u) x); [reflexivity | exact IH].
Qed.

Lemma agree_find_by_id (dL : Legacy.Database) (dN : Database) (x : string) :
  agree dL dN -> find_by_id x dN = option_map forget (legacy_find_by_id x dL).
Proof.
  intros (A1 & _). unfold find_by_id, legacy_find_by_id. rewrite <- A1.
  apply find_forget_id.
Qed.

Lemma agree_find_by_email (dL : Legacy.Database) (dN : Database) (x : string) :
  agree dL dN -> find_by_email x dN = option_map forget (legacy_find_by_email x dL).
Proof.
  intros (A1 & _). unfold find_by_email, legacy_find_by_email. rewrite <- A1.
  apply find_forget_email.
Qed.

Lemma legacy_found_by_id (d : Legacy.Database) (x : string) (user : Legacy.User) :
  legacy_find_by_id x d = Some user ->
  In user (Legacy.users (Legacy.store d)) /\ Legacy.u_id user = x.
Proof.
  unfold legacy_find_by_id. intros H. apply find_some in H. destruct H as [Hin He].
  split; [exact Hin | apply String.eqb_eq; exact He].
Qed.

Lemma saved_ids (user' : Legacy.User) (us : list Legacy.User) :
  map Legacy.u_id (legacy_saved user' us) = map Legacy.u_id us.
Proof.
  unfold legacy_saved. rewrite map_map. apply map_ext. intros u.
  destruct (String.eqb_spec (Legacy.u_id u) (Legacy.u_id user')); congruence.
Qed.

Lemma same_id_same_user (us : list Legacy.User) (u v : Legacy.User) :
  NoDup (map Legacy.u_id us) -> In u us -> In v us ->
  Legacy.u_id u = Legacy.u_id v -> u = v.
Proof.
  induction us as [|w us IH]; intros Hnd Hu Hv E; [destruct Hu|].
  cbn in Hnd. inversion Hnd as [|? ? Hni Hnd']; subst.
  destruct Hu as [->|Hu], Hv as [->|Hv].
  - reflexivity.
  - exfalso. apply Hni. rewrite E. apply in_map. exact Hv.
  - exfalso. apply Hni. rewrite <- E. apply in_map. exact Hu.
  - exact (IH Hnd' Hu Hv E).
Qed.

Lemma saved_forget (user user' : Legacy.User) (us : list Legacy.User) :
  NoDup (map Legacy.u_id us) -> In user us -> forget user' = forget user ->
  map forget (legacy_saved user' us) = map forget us.
Proof.
  intros Hnd Hin E. unfold legacy_saved. rewrite map_map. apply map_ext_in.
  intros u Hu. destruct (String.eqb_spec (Legacy.u_id u) (Legacy.u_id user')) as [Hid|_];
    [|reflexivity].
  assert (Hid' : Legacy.u_id user' = Legacy.u_id user)
    by (injection E; auto).
  rewrite E. f_equal. symmetry. apply (same_id_same_user us); try assumption.
  congruence.
Qed.

Lemma saved_In (user' : Legacy.User) (us : list Legacy.User) (u' : Legacy.User) :
  In u' (legacy_saved user' us) ->
  u' = user' \/ (In u' us /\ Legacy.u_id u' <> Legacy.u_id user').
Proof.
  unfold legacy_saved. intros H. apply in_map_iff in H. destruct H as (u & E & Hu).
  destruct (String.eqb_spec (Legacy.u_id u) (Legacy.u_id user')) as [_|Hne].
  - left. congruence.
  - right. subst u'. split; assumption.
Qed.

Lemma saved_keeps (user' : Legacy.User) (us : list Legacy.User) (u : Legacy.User) :
  In u us -> Legacy.u_id u <> Legacy.u_id user' -> In u (legacy_saved user' us).
Proof.
  intros Hu Hne. unfold legacy_saved. apply in_map_iff. exists u. split; [|exact Hu].
  apply String.eqb_neq in Hne. rewrite Hne. reflexivity.
Qed.

Lemma agree_rolled (dL : Legacy.Database) (dN : Database) (n : Uuid) (k : nat) :
  agree dL dN ->
  agree {| Legacy.store := Legacy.store dL; Legacy.clock := S (Legacy.clock dL);
           Legacy.next_uuid := n |}
        (rolled_back dN k).
Proof.
  intros (A1 & A2 & A3 & A4 & A5). repeat split; cbn; try assumption.
  - congruence.
  - apply (well_timed_rolled_back dN); [reflexivity | reflexivity | exact A5].
Qed.

Lemma agree_committed_one (dL : Legacy.Database) (dN : Database)
  (user : Legacy.User) (b1 : Z) (tsL tsN : list Transaction) (n : Uuid)
  (i ti : Uuid) (b0 : Z) (ds : string) :
  agree dL dN -> In user (Legacy.users (Legacy.store dL)) ->
  agree {| Legacy.store :=
             {| Legacy.users := legacy_saved (Legacy.set_balance user b1)
                                  (Legacy.users (Legacy.store dL));
                Legacy.transactions := tsL |};
           Legacy.clock := S (Legacy.clock dL);
           Legacy.next_uuid := n |}
        (committed dN tsN
           [stored_balance i (clock dN) (Legacy.u_id user) ti b0 b1 ds]).
Proof.
  intros (A1 & A2 & A3 & A4 & A5) Hin.
  split; [|split; [|split; [|split]]]; cbn [Legacy.store Legacy.users Legacy.clock].
  - rewrite (saved_forget user); [exact A1 | exact A3 | exact Hin | reflexivity].
  - intros u' Hu'. rewrite current_balance_committed_pair by exact A5.
    apply saved_In in Hu'. destruct Hu' as [->|[Hu' Hne]]; cbn in *.
    + rewrite String.eqb_refl. reflexivity.
    + apply String.eqb_neq in Hne. rewrite Hne. apply A2. exact Hu'.
  - rewrite saved_ids. exact A3.
  - cbn. congruence.
  - apply well_timed_committed; [repeat constructor | exact A5].
Qed.

Lemma agree_committed_two (dL : Legacy.Database) (dN : Database)
  (sender locked : Legacy.User) (bs1 br1 : Z) (tsL tsN : list Transaction)
  (n i j ti tj : Uuid) (bs0 br0 : Z) (ds dr : string) :
  agree dL dN ->
  In sender (Legacy.users (Legacy.store dL)) ->
  In locked (Legacy.users (Legacy.store dL)) ->
  Legacy.u_id locked <> Legacy.u_id sender ->
  agree {| Legacy.store :=
             {| Legacy.users :=
                  legacy_saved (Legacy.set_balance locked br1)
                    (legacy_saved (Legacy.set_balance sender bs1)
                       (Legacy.users (Legacy.store dL)));
                Legacy.transactions := tsL |};
           Legacy.clock := S (Legacy.clock dL);
           Legacy.next_uuid := n |}
        (committed dN tsN
           [stored_balance j (clock dN) (Legacy.u_id locked) tj br0 br1 dr;
            stored_balance i (clock dN) (Legacy.u_id sender) ti bs0 bs1 ds]).
Proof.
  intros (A1 & A2 & A3 & A4 & A5) Hs Hl Hne.
  split; [|split; [|split; [|split]]]; cbn [Legacy.store Legacy.users Legacy.clock].
  - rewrite (saved_forget locked);
      [ | rewrite saved_ids; exact A3
        | apply saved_keeps; [exact Hl | exact Hne]
        | reflexivity ].
    rewrite (saved_forget sender); [exact A1 | exact A3 | exact Hs | reflexivity].
  - intros u' Hu'. rewrite current_balance_committed_two by assumption.
    apply saved_In in Hu'. destruct Hu' as [->|[Hu' Hn1]]; cbn in *.
    + apply String.eqb_neq in Hne. rewrite Hne, String.eqb_refl. reflexivity.
    + apply saved_In in Hu'. destruct Hu' as [->|[Hu' Hn2]]; cbn in *.
      * rewrite String.eqb_refl. reflexivity.
      * apply String.eqb_neq in Hn1, Hn2. rewrite Hn1, Hn2. apply A2. exact Hu'.
  - rewrite !saved_ids. exact A3.
  - cbn. congruence.
  - apply well_timed_committed; [repeat constructor | exact A5].
Qed.

Lemma versions_agree_step (dL : Legacy.Database) (dN : Database) (a : Action) :
  agree dL dN -> storage_works a ->
  same_outcome (fst (fst (legacy_perform dL a))) (result_of (perform dN a))
  /\ agree (snd (fst (legacy_perform dL a))) (database_of (perform dN a)).
Proof.
  intros Hag Hs. pose proof Hag as (A1 & A2 & A3 & A4 & A5).
  unfold storage_works in Hs. unfold result_of, database_of.
  destruct a as [env uid dto | env uid dto | env uid dto];
    cbn [legacy_perform perform env_of] in *.
  - pose proof (agree_find_by_id dL dN uid Hag) as Hf.
    destruct (legacy_find_by_id uid dL) as [user|] eqn:HL; cbn in Hf.
    + destruct (legacy_found_by_id _ _ _ HL) as [Hin Hid].
      rewrite (legacy_deposit_run env dL uid dto user Hs HL).
      rewrite (deposit_run env dN uid dto _ Hf). cbv zeta.
      rewrite !(refused_none env) by exact Hs. cbn [fst snd].
      subst uid. rewrite (A2 user Hin). split.
      * cbn. rewrite A4. reflexivity.
      * apply agree_committed_one; assumption.
    + rewrite (legacy_deposit_unknown_user env dL uid dto HL).
      rewrite (deposit_unknown_user env dN uid dto Hf). cbn [fst snd].
      split; [reflexivity | apply agree_rolled; exact Hag].
  - pose proof (agree_find_by_id dL dN uid Hag) as Hf.
    destruct (legacy_find_by_id uid dL) as [user|] eqn:HL; cbn in Hf.
    + destruct (legacy_found_by_id _ _ _ HL) as [Hin Hid].
      rewrite (legacy_withdraw_run env dL uid dto user Hs HL).
      rewrite (withdraw_run env dN uid dto _ Hf). cbv zeta.
      rewrite !(refused_none env) by exact Hs.
      subst uid. rewrite (A2 user Hin).
      destruct (_ <? _); cbn [fst snd].
      * split; [reflexivity | apply agree_rolled; exact Hag].
      * split.
        -- cbn. rewrite A4. reflexivity.
        -- apply agree_committed_one; assumption.
    + rewrite (legacy_withdraw_unknown_user env dL uid dto HL).
      rewrite (withdraw_unknown_user env dN uid dto Hf). cbn [fst snd].
      split; [reflexivity | apply agree_rolled; exact Hag].
  - pose proof (agree_find_by_email dL dN (tr_recipientEmail dto) Hag) as Hfe.
    destruct (legacy_transfer_rejected env dL uid dto) as [Hnone Hsome].
    destruct (legacy_find_by_email (tr_recipientEmail dto) dL) as [recipient|] eqn:HR;
      cbn in Hfe.
    2:{ rewrite (Hnone eq_refl).
        rewrite (transfer_unknown_recipient env dN uid dto Hfe). cbn [fst snd].
        split; [reflexivity | apply agree_rolled; exact Hag]. }
    destruct (Hsome recipient eq_refl) as [Hself Hnosender].
    destruct (String.string_dec (Legacy.u_id recipient) uid) as [Hid|Hid].
    { rewrite (Hself Hid).
      rewrite (transfer_to_self env dN uid dto (forget recipient) Hfe Hid).
      cbn [fst snd]. split; [reflexivity | apply agree_rolled; exact Hag]. }
    pose proof (agree_find_by_id dL dN uid Hag) as Hf.
    destruct (legacy_find_by_id uid dL) as [sender|] eqn:HL; cbn in Hf.
    2:{ rewrite (Hnosender Hid eq_refl).
        rewrite (transfer_unknown_sender env dN uid dto (forget recipient) Hfe Hid Hf).
        cbn [fst snd]. split; [reflexivity | apply agree_rolled; exact Hag]. }
    destruct (legacy_find_by_id_of_found dL _ _ HR) as [locked HK].
    destruct (legacy_found_by_id _ _ _ HL) as [Hin Hsid].
    destruct (legacy_found_by_id _ _ _ HK) as [Hink Hkid].
    rewrite (legacy_transfer_run env dL uid dto recipient sender locked Hs HR Hid HL HK).
    rewrite (transfer_run env dN uid dto (forget recipient) (forget sender) Hfe Hid Hf).
    cbv zeta. rewrite !(refused_none env) by exact Hs.
    cbn [forget u_id u_email].
    clear Hself Hnosender Hnone Hsome.
    subst uid. rewrite (A2 sender Hin), (A2 locked Hink), Hkid.
    destruct (_ <? _); cbn [fst snd].
    + split; [reflexivity | apply agree_rolled; exact Hag].
    + split.
      * cbn. rewrite A4. reflexivity.
      * rewrite <- Hkid. apply agree_committed_two; try assumption. congruence.
Qed.

Lemma versions_agree_all (actions : list Action) :
  forall dL dN,
    agree dL dN -> Forall storage_works actions ->
    agree (legacy_perform_all dL actions) (perform_all dN actions).
Proof.
  induction actions as [|a rest IH]; intros dL dN Hag Hs; [exact Hag|].
  inversion Hs as [|? ? Ha Hrest]; subst. cbn [legacy_perform_all perform_all].
  apply IH; [|exact Hrest]. apply versions_agree_step; assumption.
Qed.

Lemma agree_getBalance (dL : Legacy.Database) (dN : Database) (userId : string) :
  agree dL dN -> Legacy.getBalance dL userId = getBalance dN userId.
Proof.
  intros Hag. pose proof (agree_find_by_id dL dN userId Hag) as Hf.
  destruct Hag as (_ & A2 & _).
  unfold Legacy.getBalance, getBalance. unfold find_by_id, legacy_find_by_id in Hf.
  rewrite Hf.
  destruct (find _ (Legacy.users (Legacy.store dL))) as [user|] eqn:E; cbn;
    [|reflexivity].
  apply find_some in E. destruct E as [Hin He]. apply String.eqb_eq in He.
  rewrite (A2 user Hin), He. reflexivity.
Qed.

Lemma agree_start (accounts : list User) (now : nat) (next : Uuid) :
  NoDup (map u_id accounts) ->
  agree (legacy_start accounts now next) (empty_ledger accounts now next).
Proof.
  intros Hnd. unfold agree, legacy_start, empty_ledger.
  cbn [Legacy.store Legacy.users Legacy.clock store users clock].
  split; [|split; [|split; [|split]]].
  - rewrite map_map. rewrite <- (map_id accounts) at 2. apply map_ext.
    intros [i e]. reflexivity.
  - intros u Hu. apply in_map_iff in Hu. destruct Hu as (u0 & <- & _). reflexivity.
  - rewrite map_map. exact Hnd.
  - reflexivity.
  - constructor.
Qed.

(** X17.  The two versions of the service agree.  Start the earlier version
    (balance column) with every balance at 0 and the later version (balance
    entries) with an empty ledger, over the same accounts with distinct ids.
    Then for every sequence of deposits, withdrawals and transfers for which
    the storage works, each call returns in both versions the same exception
    or the same transaction up to its generated id, and after the sequence
    [getBalance] answers the same in both versions for every account. *)
Theorem versions_agree (accounts : list User) (now : nat) (next : Uuid)
  (actions : list Action) (a : Action) (userId : string) :
  NoDup (map u_id accounts) ->
  Forall storage_works actions -> storage_works a ->
  let dL := legacy_perform_all (legacy_start accounts now next) actions in
  let dN := perform_all (empty_ledger accounts now next) actions in
  Legacy.getBalance dL userId = getBalance dN userId
  /\ same_outcome (fst (fst (legacy_perform dL a))) (result_of (perform dN a)).
Proof.
  intros Hnd Hs Ha dL dN.
  assert (Hag : agree dL dN)
    by (apply versions_agree_all; [apply agree_start; exact Hnd | exact Hs]).
  split; [apply agree_getBalance; exact Hag|].
  apply versions_agree_step; assumption.
Qed.

Lemma versions_agree_witness :
  Legacy.getBalance
    (legacy_perform_all (legacy_start [account_A; account_B] 0 0)
       [ADeposit healthy "A" fifty; ATransfer healthy "A" (to_B 2000)]) "B"
  = getBalance
      (perform_all (empty_ledger [account_A; account_B] 0 0)
         [ADeposit healthy "A" fifty; ATransfer healthy "A" (to_B 2000)]) "B"
  /\ same_outcome
       (fst (fst (legacy_perform
                    (legacy_perform_all (legacy_start [account_A; account_B] 0 0)
                       [ADeposit healthy "A" fifty; ATransfer healthy "A" (to_B 2000)])
                    (AWithdraw healthy "B"
                       {| wd_amount := 2000; wd_description := None |}))))
       (result_of (perform
                     (perform_all (empty_ledger [account_A; account_B] 0 0)
                        [ADeposit healthy "A" fifty; ATransfer healthy "A" (to_B 2000)])
                     (AWithdraw healthy "B"
                        {| wd_amount := 2000; wd_description := None |}))).
Proof.
  apply (versions_agree [account_A; account_B] 0 0
           [ADeposit healthy "A" fifty; ATransfer healthy "A" (to_B 2000)]
           (AWithdraw healthy "B" {| wd_amount := 2000; wd_description := None |}) "B").
  - repeat constructor; cbn; intuition discriminate.
  - repeat constructor.
  - reflexivity.
Defined.

(** ** The balance on the returned transaction *)







(** ** Only the caller pays *)

Lemma perform_only_caller_pays (d : Database) (a : Action) (v : string) :
  well_timed d -> 0 <= amount_of a -> v <> caller a ->
  current_balance d v <= current_balance (database_of (perform d a)) v.
Proof.
  intros Hwf Hamt Hv. unfold database_of.
  destruct a as [env uid dto | env uid dto | env uid dto];
    cbn [perform amount_of caller] in *.
  - destruct (deposit env d uid dto) as [[[e|t] d'] tr] eqn:E; cbn [fst snd].
    + destruct (dataSource_transaction_rollback _ _ _ _ _ E) as [Hs _].
      rewrite (current_balance_same_store _ _ _ Hs). lia.
    + destruct (deposit_ok_inv _ _ _ _ _ _ _ E) as (u & _ & _ & _ & _ & -> & _).
      rewrite current_balance_committed_pair by exact Hwf.
      apply String.eqb_neq in Hv. rewrite Hv. lia.
  - destruct (withdraw env d uid dto) as [[[e|t] d'] tr] eqn:E; cbn [fst snd].
    + destruct (dataSource_transaction_rollback _ _ _ _ _ E) as [Hs _].
      rewrite (current_balance_same_store _ _ _ Hs). lia.
    + destruct (withdraw_ok_inv _ _ _ _ _ _ _ E) as (u & _ & _ & _ & _ & _ & -> & _).
      rewrite current_balance_committed_pair by exact Hwf.
      apply String.eqb_neq in Hv. rewrite Hv. lia.
  - destruct (transfer env d uid dto) as [[[e|t] d'] tr] eqn:E; cbn [fst snd].
    + destruct (dataSource_transaction_rollback _ _ _ _ _ E) as [Hs _].
      rewrite (current_balance_same_store _ _ _ Hs). lia.
    + destruct (transfer_ok_inv _ _ _ _ _ _ _ E)
        as (r & s0 & _ & Hne & _ & _ & _ & -> & _).
      rewrite current_balance_committed_two by assumption.
      apply String.eqb_neq in Hv. rewrite Hv.
      destruct (String.eqb_spec v (u_id r)) as [->|_]; lia.
Qed.

Lemma serve_cases_caller (d : Database) (c : Env * HttpRequest) :
  serve d c = (result_of (serve d c), d, [])
  \/ exists a, 1 <= amount_of a /\ caller a = u_id (user_of c)
               /\ serve d c = perform d a.
Proof.
  destruct c as [env [user body | user body | user body]];
    unfold serve, user_of, controller_deposit, controller_withdraw,
      controller_transfer, ValidationPipe; cbn [fst snd].
  - destruct (validate_amount "deposit" (depb_amount body)) eqn:V;
      [|left; reflexivity].
    right. exists (ADeposit env (u_id user)
                     {| dep_amount := cents (depb_amount body);
                        dep_description := depb_description body |}).
    split; [exact (validate_amount_ok _ _ V) | split; reflexivity].
  - destruct (validate_amount "withdrawal" (wdb_amount body)) eqn:V;
      [|left; reflexivity].
    right. exists (AWithdraw env (u_id user)
                     {| wd_amount := cents (wdb_amount body);
                        wd_description := wdb_description body |}).
    split; [exact (validate_amount_ok _ _ V) | split; reflexivity].
  - destruct (validate_amount "transfer" (trb_amount body)) eqn:V;
      [|left; reflexivity].
    right. exists (ATransfer env (u_id user)
                     {| tr_recipientEmail := trb_recipientEmail body;
                        tr_amount := cents (trb_amount body);
                        tr_description := trb_description body |}).
    split; [exact (validate_amount_ok _ _ V) | split; reflexivity].
Qed.

(** X20.  A request never lowers the balance of an account other than that
    of the authenticated user who sends it: the controller passes the id of
    that user to the service, and the service takes money from the caller
    only. *)
Theorem only_the_caller_pays (d : Database) (c : Env * HttpRequest) (v : string) :
  well_timed d ->
  v <> u_id (user_of c) ->
  current_balance d v <= current_balance (database_of (serve d c)) v.
Proof.
  intros Hwf Hv.
  destruct (serve_cases_caller d c) as [E | (a & Ha & Hc & E)]; rewrite E.
  - unfold database_of. cbn [fst snd]. lia.
  - apply perform_only_caller_pays; [exact Hwf | lia | congruence].
Qed.

Lemma only_the_caller_pays_witness :
  current_balance bank_AB "B"
  <= current_balance
       (database_of (serve bank_AB
                       (healthy,
                        PostTransfer account_A
                          {| trb_recipientEmail := "b@example.com";
                             trb_amount := {| mantissa := 25; places := 0 |};
                             trb_description := None |}))) "B".
Proof.
  assert (Hwf : well_timed bank_AB).
  { unfold well_timed. vm_compute. repeat constructor. }
  apply (only_the_caller_pays bank_AB); [exact Hwf | cbn; discriminate].
Defined.

(** ** Witnesses *)

Lemma books_balance_witness :
  total (perform_all (empty_ledger [account_A; account_B] 0 0)
           [ADeposit healthy "A" fifty; ATransfer healthy "A" (to_B 2000)])
    ["A"; "B"]
  = paid_in (empty_ledger [account_A; account_B] 0 0)
      [ADeposit healthy "A" fifty; ATransfer healthy "A" (to_B 2000)]
    - paid_out (empty_ledger [account_A; account_B] 0 0)
        [ADeposit healthy "A" fifty; ATransfer healthy "A" (to_B 2000)].
Proof.
  apply (books_balance [account_A; account_B] 0 0
           [ADeposit healthy "A" fifty; ATransfer healthy "A" (to_B 2000)] ["A"; "B"]).
  split.
  - repeat constructor; cbn; intuition discriminate.
  - cbn. intros u [<-|[<-|[]]]; cbn; auto.
Defined.

Lemma other_accounts_untouched_witness :
  current_balance (database_of (perform bank_AB (ADeposit healthy "A" fifty))) "B"
  = current_balance bank_AB "B".
Proof.
  apply (other_accounts_untouched bank_AB (ADeposit healthy "A" fifty) "B").
  cbn. intros [E|[]]. discriminate.
Defined.

Lemma audit_is_about_the_caller_witness :
  audit_subjects (trace_of (perform bank150 (ATransfer healthy "A" (to_B 15000))))
  = ["A"; "A"].
Proof.
  apply (audit_is_about_the_caller bank150 (ATransfer healthy "A" (to_B 15000))).
  vm_compute. reflexivity.
Defined.

